(** * char-load: the char-unit-load generic service

    A shallow embedding of package [charunit].  The repository holds two
    copies of the service file; they share the data types and differ in
    [Validate], [NewCharUnitLoad], [DoCommand] and [Reconfigure]:

    - [Detached]: the copy whose [DoCommand] launches [bioCharProcess]
      with a [go] statement (part_000, lines 1-191);
    - [Inline]: the copy whose [DoCommand] drives the pin itself
      (part_000, lines 193-362).

    Effects are modelled as an event trace: every call of the logger, of
    the board, of a pin, of [time.Sleep], every [go] statement and every
    call of the cancel function appends one event. *)

From Stdlib Require Import ZArith String List.
From stdpp Require Import gmap strings list fin_maps.
Import ListNotations.
Local Open Scope string_scope.
Local Open Scope Z_scope.

(** ** Values, errors and collaborators *)

Set Warnings "-register-all".

(** The dynamic values an [interface{}] of a command map can hold. *)
Inductive Value : Type :=
| VNil
| VBool (x : bool)
| VInt (x : Z)
| VString (x : string)
| VList (xs : list Value)
| VMap (kvs : list (string * Value)).

(** Go [error] values.  [Errorf] keeps the format string and the
    arguments of [fmt.Errorf] instead of the rendered text. *)
Inductive error : Type :=
| Errorf (format : string) (args : list fmtarg)
| FieldRequired (path field : string)
    (* utils.NewConfigValidationFieldRequiredError *)
| DependencyNotFound (dep : string)
| DependencyType (dep : string)
| NativeConfigError
| External (msg : string)
    (* an error made by a board or a pin *)
with fmtarg : Type :=
| ArgV (v : Value)
| ArgE (e : error).

(** board.GPIOPin: [pin_Set high] is [pin.Set(ctx, high, nil)]; [None]
    is the nil error. *)
Record GPIOPin : Type := { pin_Set : bool -> option error }.

(** board.Board: its resource name and the pin lookup. *)
Record Board : Type := {
  board_Name : string;
  GPIOPinByName : string -> GPIOPin + error
}.

(** time.Duration counts nanoseconds. *)
Definition Second : Z := 1000000000.

Inductive level : Type := LInfo | LWarn | LError.

Inductive event : Type :=
| Logf (lv : level) (format : string) (args : list fmtarg)
| Logv (lv : level) (args : list fmtarg)
| PinByName (name : string)
| PinSet (p : GPIOPin) (high : bool)
| Sleep (d : Z)
| Go
| Cancel.

Inductive panic : Type :=
| TypeAssertion (v : Value) (want : string)
| NilDereference.

(** ** Computations: a trace of events, then a result or a panic *)

Inductive outcome (A : Type) : Type :=
| Done (a : A)
| Panicked (p : panic).
Arguments Done {A} a.
Arguments Panicked {A} p.

Definition M (A : Type) : Type := list event * outcome A.

#[global] Instance M_ret : MRet M := fun A (a : A) => ([], Done a).

#[global] Instance M_bind : MBind M := fun A B (f : A -> M B) (m : M A) =>
  match m with
  | (t, Done a) => let (t', r) := f a in ((t ++ t')%list, r)
  | (t, Panicked p) => (t, Panicked p)
  end.

Definition emit (e : event) : M unit := ([e], Done tt).
Definition throw {A} (p : panic) : M A := ([], Panicked p).

(** [value.(string)]: the one-result type assertion panics on any other
    dynamic type, nil included. *)
Definition assert_string (v : Value) : M string :=
  match v with
  | VString x => mret x
  | _ => throw (TypeAssertion v "string")
  end.

(** A method call through an interface value: nil panics. *)
Definition deref {A} (x : option A) : M A :=
  match x with
  | Some a => mret a
  | None => throw NilDereference
  end.

(** [for key, value := range cmd { body }; after]: the body answers
    [Some r] when it executes [return r] and [None] when it reaches the
    end of the iteration.  The list is the order in which the loop meets
    the entries. *)
Fixpoint for_range {A} (body : string -> Value -> M (option A)) (after : M A)
    (cmd : list (string * Value)) : M A :=
  match cmd with
  | [] => after
  | (key, value) :: rest =>
      r ← body key value;
      match r with
      | Some a => mret a
      | None => for_range body after rest
      end
  end.

(** A Go map has no iteration order: a [range] loop may meet the entries
    of [m] in any order. *)
Definition ranges (m : gmap string Value) (l : list (string * Value)) : Prop :=
  l ≡ₚ map_to_list m.

(** ** Configuration and service state *)

Record Config : Type := { Board_ : string }.

(** resource.Config as far as the service reads it: the resource name
    and the attributes, [None] when they do not convert to [*Config]. *)
Record resource_Config : Type := {
  ResourceName : string;
  ConvertedAttributes : option Config
}.

(** resource.NativeConfig[*Config] *)
Definition NativeConfig (rawConf : resource_Config) : Config + error :=
  match ConvertedAttributes rawConf with
  | Some c => inl c
  | None => inr NativeConfigError
  end.

Inductive Resource : Type :=
| RBoard (x : Board)
| ROther.

(** board.FromDependencies of the rdk library: the zero value (nil) and
    an error when the name is absent or names something that is not a
    board. *)
Definition FromDependencies (deps : gmap string Resource) (name : string)
    : option Board * option error :=
  match deps !! name with
  | Some (RBoard x) => (Some x, None)
  | Some ROther => (None, Some (DependencyType name))
  | None => (None, Some (DependencyNotFound name))
  end.

(** The struct [charUnitCharUnitLoad].  [cancelCtx] is [true] once the
    context is cancelled; [cancelFunc] is the function that sets it.
    The logger is the event trace. *)
Record charUnitCharUnitLoad : Type := {
  name : string;
  cfg : Config;
  cancelCtx : bool;
  b : option Board
}.

Definition cancelFunc (s : charUnitCharUnitLoad) : charUnitCharUnitLoad :=
  {| name := name s; cfg := cfg s; cancelCtx := true; b := b s |}.

Definition Close (s : charUnitCharUnitLoad)
    : charUnitCharUnitLoad * M (option error) :=
  (cancelFunc s, emit Cancel;; mret None).

Definition DoCommand_result : Type :=
  (option (list (string * Value)) * option error)%type.

Definition set_b (s : charUnitCharUnitLoad) (x : option Board)
    : charUnitCharUnitLoad :=
  {| name := name s; cfg := cfg s; cancelCtx := cancelCtx s; b := x |}.

Definition set_name (s : charUnitCharUnitLoad) (x : string)
    : charUnitCharUnitLoad :=
  {| name := x; cfg := cfg s; cancelCtx := cancelCtx s; b := b s |}.

(** ** The copy that detaches the pulse (part_000, lines 1-191) *)

Module Detached.

(** Config.Validate, lines 52-59.  A nil slice is [None]. *)
Definition Validate (cfg : Config) (path : string)
    : option (list string) * option error :=
  let deps := [Board_ cfg] in
  if String.eqb (Board_ cfg) "" then
    (None, Some (FieldRequired path "board"))
  else (Some deps, None).

(** DoCommand, lines 114-136. *)
Definition DoCommand (s : charUnitCharUnitLoad) (cmd : list (string * Value))
    : M DoCommand_result :=
  for_range
    (fun key value =>
       if String.eqb key "char_load" then
         emit (Logf LInfo "DoCommand key=%v" [ArgV (VString key)]);;
         command ← assert_string value;
         emit (Logf LInfo "DoCommand command=%v" [ArgV (VString command)]);;
         if String.eqb command "start" then
           emit Go;;
           mret (Some (None, None))
         else
           mret (Some (None, Some (Errorf "unknown DoCommand value for %v = %v"
                                     [ArgV (VString key); ArgV value])))
       else
         mret (Some (None, Some (Errorf "unknown DoCommand key = %v "
                                   [ArgV (VString key)]))))
    (mret (None, Some (Errorf "unknown DoCommand command map: %v"
                         [ArgV (VMap cmd)])))
    cmd.

(** bioCharProcess, lines 138-157: from its entry to the call of
    [time.Sleep].  The pin is returned when that call is reached. *)
Definition bioCharProcess_enter (s : charUnitCharUnitLoad)
    : list event * option GPIOPin :=
  match b s with
  | None =>
      ([Logv LError
          [ArgV (VString "s.b (Board component) is nil inside DoCommand")]],
       None)
  | Some board =>
      match GPIOPinByName board "11" with
      | inr err => ([PinByName "11"; Logv LError [ArgE err]], None)
      | inl pin =>
          match pin_Set pin true with
          | Some err =>
              ([PinByName "11";
                Logf LInfo "DoCommand fetched the pin successfully" [];
                PinSet pin true;
                Logv LError [ArgE err]], None)
          | None =>
              ([PinByName "11";
                Logf LInfo "DoCommand fetched the pin successfully" [];
                PinSet pin true;
                Logf LInfo "DoCommand set the pin to high successfully" []],
               Some pin)
          end
      end
  end.

(** The hold of line 159. *)
Definition hold : Z := 60 * Second.

(** bioCharProcess, lines 160-168: from the return of [time.Sleep] to
    the end. *)
Definition bioCharProcess_wake (pin : GPIOPin) : list event :=
  Logf LInfo "DoCommand finished sleeping" [] ::
  PinSet pin false ::
  match pin_Set pin false with
  | Some err => [Logv LError [ArgE err]]
  | None => [Logf LInfo "DoCommand set the pin to low successfully" []]
  end.

(** bioCharProcess run from its entry to its end. *)
Definition bioCharProcess (s : charUnitCharUnitLoad) : list event :=
  match bioCharProcess_enter s with
  | (t, None) => t
  | (t, Some pin) => (t ++ Sleep hold :: bioCharProcess_wake pin)%list
  end.

(** Reconfigure, lines 178-191. *)
Definition Reconfigure (s : charUnitCharUnitLoad)
    (deps : gmap string Resource) (rawConf : resource_Config)
    : charUnitCharUnitLoad * M (option error) :=
  match NativeConfig rawConf with
  | inr err => (s, mret (Some err))
  | inl conf =>
      match FromDependencies deps (Board_ conf) with
      | (_, Some err) =>
          (s, mret (Some (Errorf
                 "no source camera for transform pipeline  (%s): %w"
                 [ArgV (VString (Board_ conf)); ArgE err])))
      | (b0, None) =>
          let s' := set_b s b0 in
          (s', board ← deref (b s');
               emit (Logv LInfo [ArgV (VString "board is now configured to ");
                                 ArgV (VString (board_Name board))]);;
               mret None)
      end
  end.

(** NewCharUnitLoad, lines 81-104.  The fresh context is not cancelled. *)
Definition NewCharUnitLoad (deps : gmap string Resource) (name0 : string)
    (rawConf : resource_Config) : M (option charUnitCharUnitLoad * option error) :=
  match NativeConfig rawConf with
  | inr err => emit Cancel;; mret (None, Some err)
  | inl conf =>
      let s := {| name := name0; cfg := conf; cancelCtx := false; b := None |} in
      let (s', r) := Reconfigure s deps rawConf in
      err ← r;
      match err with
      | Some e => mret (None, Some e)
      | None => mret (Some s', None)
      end
  end.

(** *** The service and its goroutines

    [go bioCharProcess(s)] starts a goroutine that shares [s].  A
    goroutine is [Ready] from the [go] statement until it is first
    scheduled, [Sleeping pin wake] while inside [time.Sleep] (it resumes
    no earlier than [wake]) and [Finished] after its return. *)
Inductive goroutine : Type :=
| Ready
| Sleeping (pin : GPIOPin) (wake : Z)
| Finished.

Record world : Type := {
  svc : charUnitCharUnitLoad;
  pool : list goroutine;
  now : Z;
  trace : list (Z * event)
}.

Inductive action : Type :=
| CallDoCommand (cmd : list (string * Value))
| CallClose
| CallReconfigure (deps : gmap string Resource) (rawConf : resource_Config)
| Schedule (i : nat)
| Advance (d : Z).

Inductive reply : Type :=
| DoCommandReply (r : outcome DoCommand_result)
| ErrorReply (r : outcome (option error)).

Definition stamp (t : Z) (es : list event) : list (Z * event) :=
  map (pair t) es.

(** One goroutine per executed [go] statement. *)
Definition spawned (es : list event) : list goroutine :=
  omap (fun e => match e with Go => Some Ready | _ => None end) es.

(** A scheduled goroutine runs until it blocks or returns. *)
Definition run_goroutine (s : charUnitCharUnitLoad) (t : Z) (g : goroutine)
    : goroutine * list event :=
  match g with
  | Ready =>
      match bioCharProcess_enter s with
      | (es, Some pin) => (Sleeping pin (t + hold), (es ++ [Sleep hold])%list)
      | (es, None) => (Finished, es)
      end
  | Sleeping pin wake =>
      if Z.leb wake t then (Finished, bioCharProcess_wake pin)
      else (Sleeping pin wake, [])
  | Finished => (Finished, [])
  end.

Definition step (w : world) (a : action) : world * option reply :=
  match a with
  | CallDoCommand cmd =>
      let (es, r) := DoCommand (svc w) cmd in
      ({| svc := svc w; pool := (pool w ++ spawned es)%list; now := now w;
          trace := (trace w ++ stamp (now w) es)%list |},
       Some (DoCommandReply r))
  | CallClose =>
      let '(s', (es, r)) := Close (svc w) in
      ({| svc := s'; pool := pool w; now := now w;
          trace := (trace w ++ stamp (now w) es)%list |},
       Some (ErrorReply r))
  | CallReconfigure deps rawConf =>
      let '(s', (es, r)) := Reconfigure (svc w) deps rawConf in
      ({| svc := s'; pool := pool w; now := now w;
          trace := (trace w ++ stamp (now w) es)%list |},
       Some (ErrorReply r))
  | Schedule i =>
      match pool w !! i with
      | Some g =>
          let (g', es) := run_goroutine (svc w) (now w) g in
          ({| svc := svc w; pool := <[i := g']> (pool w); now := now w;
              trace := (trace w ++ stamp (now w) es)%list |}, None)
      | None => (w, None)
      end
  | Advance d =>
      ({| svc := svc w; pool := pool w; now := now w + Z.max 0 d;
          trace := trace w |}, None)
  end.

Fixpoint run (w : world) (acts : list action) : world * list reply :=
  match acts with
  | [] => (w, [])
  | a :: rest =>
      let (w1, r) := step w a in
      let (w2, rs) := run w1 rest in
      (w2, (match r with Some x => [x] | None => [] end ++ rs)%list)
  end.

(** The pulses in flight: goroutines that have set the pin high and have
    not yet reached the write that sets it low, each with its pin and
    the end of its hold. *)
Definition in_flight (w : world) : list (GPIOPin * Z) :=
  omap (fun g => match g with Sleeping pin wake => Some (pin, wake) | _ => None end)
    (pool w).

Definition active (w : world) : nat := length (in_flight w).

Definition fresh (s : charUnitCharUnitLoad) : world :=
  {| svc := s; pool := []; now := 0; trace := [] |}.

(** newCharUnitCharUnitLoad, lines 75-79: the registered constructor. *)
Definition newCharUnitCharUnitLoad (deps : gmap string Resource)
    (rawConf : resource_Config) : M (option charUnitCharUnitLoad * option error) :=
  NewCharUnitLoad deps (ResourceName rawConf) rawConf.

End Detached.

(** ** The copy that drives the pin inside DoCommand (part_000, lines 193-362) *)

Module Inline.

(** Config.Validate, lines 243-248.  The slice returned for a board
    that is named is empty, not nil. *)
Definition Validate (cfg : Config) (path : string)
    : option (list string) * option error :=
  if String.eqb (Board_ cfg) "" then
    (None, Some (FieldRequired path "board"))
  else (Some [], None).

(** The hold of line 319. *)
Definition hold : Z := 60 * Second.

(** DoCommand, lines 296-335. *)
Definition DoCommand (s : charUnitCharUnitLoad) (cmd : list (string * Value))
    : M DoCommand_result :=
  for_range
    (fun key value =>
       if String.eqb key "char_load" then
         emit (Logf LInfo "DoCommand key=%v" [ArgV (VString key)]);;
         command ← assert_string value;
         emit (Logf LInfo "DoCommand command=%v" [ArgV (VString command)]);;
         if String.eqb command "start" then
           board ← deref (b s);
           emit (PinByName "11");;
           match GPIOPinByName board "11" with
           | inr err => mret (Some (None, Some err))
           | inl pin =>
               emit (PinSet pin true);;
               match pin_Set pin true with
               | Some err => mret (Some (None, Some err))
               | None =>
                   emit (Sleep hold);;
                   emit (PinSet pin false);;
                   match pin_Set pin false with
                   | Some err => mret (Some (None, Some err))
                   | None => mret (Some (None, None))
                   end
               end
           end
         else
           mret (Some (None, Some (Errorf "unknown DoCommand value for %v = %v"
                                     [ArgV (VString key); ArgV value])))
       else
         mret (Some (None, Some (Errorf "unknown DoCommand key = %v "
                                   [ArgV (VString key)]))))
    (mret (None, Some (Errorf "unknown DoCommand command map: %v"
                         [ArgV (VMap cmd)])))
    cmd.

(** Reconfigure, lines 344-362.  The result of the lookup is stored in
    [s.b] before the error is tested. *)
Definition Reconfigure (s : charUnitCharUnitLoad)
    (deps : gmap string Resource) (conf : resource_Config)
    : charUnitCharUnitLoad * M (option error) :=
  match NativeConfig conf with
  | inr err =>
      (s, emit (Logv LWarn [ArgV (VString "Error reconfiguring module with ");
                            ArgE err]);;
          mret (Some err))
  | inl serviceConfig =>
      let s1 := set_name s (ResourceName conf) in
      let (b0, err) := FromDependencies deps (Board_ serviceConfig) in
      let s2 := set_b s1 b0 in
      match err with
      | Some _ =>
          (s2, mret (Some (Errorf "unable to get board %v for %v"
                             [ArgV (VString (Board_ serviceConfig));
                              ArgV (VString (name s2))])))
      | None =>
          (s2, board ← deref (b s2);
               emit (Logv LInfo [ArgV (VString "board is now configured to ");
                                 ArgV (VString (board_Name board))]);;
               mret None)
      end
  end.

(** NewCharUnitLoad, lines 274-286: no board is bound here. *)
Definition NewCharUnitLoad (name0 : string) (conf : Config)
    : option charUnitCharUnitLoad * option error :=
  (Some {| name := name0; cfg := conf; cancelCtx := false; b := None |}, None).

(** newCharUnitCharUnitLoad, lines 264-272: the registered constructor.
    The dependencies are not read. *)
Definition newCharUnitCharUnitLoad (deps : gmap string Resource)
    (rawConf : resource_Config) : option charUnitCharUnitLoad * option error :=
  match NativeConfig rawConf with
  | inr err => (None, Some err)
  | inl conf => NewCharUnitLoad (ResourceName rawConf) conf
  end.

End Inline.

(** Name, lines 106-108 and 288-290. *)
Definition Name (s : charUnitCharUnitLoad) : string := name s.

(** ** The command line harness (cmd/cli/main.go) *)

Module Cli.

(** realMain, lines 18-34: the service is built by the constructor that
    takes a [*Config], from the zero [Config] and no dependencies; the
    deferred Close runs when the function returns and its result is
    dropped. *)
Definition realMain : M (option error) :=
  match Inline.NewCharUnitLoad "foo" {| Board_ := "" |} with
  | (_, Some err) => mret (Some err)
  | (thing, None) =>
      s ← deref thing;
      snd (Close s);;
      mret None
  end.

End Cli.

(** ** Sample collaborators *)

Definition good_pin : GPIOPin := {| pin_Set := fun _ => None |}.

Definition good_board : Board :=
  {| board_Name := "b1"; GPIOPinByName := fun _ => inl good_pin |}.

(** A board without pins. *)
Definition bare_board : Board :=
  {| board_Name := "b1";
     GPIOPinByName := fun _ => inr (External "pin not found") |}.

Definition service_on (x : option Board) : charUnitCharUnitLoad :=
  {| name := "foo"; cfg := {| Board_ := "b1" |}; cancelCtx := false; b := x |}.

Definition start_cmd : list (string * Value) := [("char_load", VString "start")].

(** The pin writes of a trace, in order. *)
Definition writes (es : list event) : list (GPIOPin * bool) :=
  omap (fun e => match e with PinSet p h => Some (p, h) | _ => None end) es.

(** The map of the start command. *)
Definition start_map : gmap string Value := {["char_load" := VString "start"]}.

(** The errors of DoCommand. *)
Definition unknown_value (key : string) (value : Value) : error :=
  Errorf "unknown DoCommand value for %v = %v" [ArgV (VString key); ArgV value].

Definition unknown_key (key : string) : error :=
  Errorf "unknown DoCommand key = %v " [ArgV (VString key)].


(** A map with two keys, and one order in which a range loop may meet
    them. *)
Definition two_keys (v : Value) : gmap string Value :=
  <["x" := VInt 1]> {["char_load" := v]}.

(** [k] start commands, each followed by the first scheduling of its
    goroutine, with no time passing. *)
Fixpoint burst (i k : nat) : list Detached.action :=
  match k with
  | O => []
  | S k' =>
    Detached.CallDoCommand start_cmd :: Detached.Schedule i :: burst (S i) k'
  end.

(** A pulse started on a healthy board and closed half way through the
    hold. *)
Definition close_mid_hold : list Detached.action :=
  [Detached.CallDoCommand start_cmd; Detached.Schedule 0;
   Detached.Advance (30 * Second); Detached.CallClose].

(** A configuration that names the board "b1". *)
Definition conf_b1 : resource_Config :=
  {| ResourceName := "foo"; ConvertedAttributes := Some {| Board_ := "b1" |} |}.

(** A pin that cannot be driven high. *)
Definition stuck_pin : GPIOPin :=
  {| pin_Set := fun high => if high then Some (External "write failed") else None |}.

(** A pin that cannot be driven low. *)
Definition latched_pin : GPIOPin :=
  {| pin_Set := fun high => if high then None else Some (External "write failed") |}.

Definition board_of (p : GPIOPin) : Board :=
  {| board_Name := "b1"; GPIOPinByName := fun _ => inl p |}.

(** A trace that starts no pulse: nothing but log lines, so no [go]
    statement, no pin lookup, no pin write and no sleep. *)
Definition starts_no_pulse (es : list event) : Prop :=
  ∀ e, In e es →
    match e with
    | Logf _ _ _ | Logv _ _ => True
    | _ => False
    end.

(** The command a range loop meets first is a start command. *)
Definition is_start (cmd : list (string * Value)) : bool :=
  match cmd with
  | (key, VString command) :: _ =>
      String.eqb key "char_load" && String.eqb command "start"
  | _ => false
  end.

(** The start commands among the actions of a run. *)
Fixpoint starts (acts : list Detached.action) : nat :=
  match acts with
  | [] => O
  | Detached.CallDoCommand cmd :: rest =>
      ((if is_start cmd then 1 else 0) + starts rest)%nat
  | _ :: rest => starts rest
  end.

(** Every write that sets a pin low comes at least one hold after a
    write that set the same pin high. *)
Definition held (tr : list (Z * event)) : Prop :=
  ∀ t p, In (t, PinSet p false) tr →
    ∃ t', In (t', PinSet p true) tr ∧ t' + Detached.hold ≤ t.

(** Every goroutine inside its sleep set its pin high one hold before
    its wake time. *)
Definition sleepers_set_high (w : Detached.world) : Prop :=
  ∀ i pin wake, Detached.pool w !! i = Some (Detached.Sleeping pin wake) →
    In (wake - Detached.hold, PinSet pin true) (Detached.trace w)
    ∧ wake - Detached.hold ≤ Detached.now w.

(** The timed pin writes that goroutine [i] performs during a run: the
    writes among the events of the steps that schedule it. *)
Fixpoint own_writes (w : Detached.world) (acts : list Detached.action)
    (i : nat) : list (Z * (GPIOPin * bool)) :=
  match acts with
  | [] => []
  | a :: rest =>
      (match a with
       | Detached.Schedule j =>
           if Nat.eqb j i then
             match Detached.pool w !! j with
             | Some g =>
                 map (pair (Detached.now w))
                   (writes (snd (Detached.run_goroutine (Detached.svc w)
                                   (Detached.now w) g)))
             | None => []
             end
           else []
       | _ => []
       end ++ own_writes (fst (Detached.step w a)) rest i)%list
  end.

(** What a goroutine in state [g] may still write: before its first
    scheduling nothing, or high only, or high and then low on the same
    pin at least one hold later; inside its sleep nothing or low on its
    pin at its wake time or later; after its end nothing. *)
Definition pulse_shape (g : option Detached.goroutine)
    (ws : list (Z * (GPIOPin * bool))) : Prop :=
  match g with
  | None | Some Detached.Ready =>
      ws = []
      ∨ (∃ t p, ws = [(t, (p, true))])
      ∨ (∃ t t' p, ws = [(t, (p, true)); (t', (p, false))]
                   ∧ t + Detached.hold ≤ t')
  | Some (Detached.Sleeping pin wake) =>
      ws = [] ∨ (∃ t', ws = [(t', (pin, false))] ∧ wake ≤ t')
  | Some Detached.Finished => ws = []
  end.

(** * Properties *)

(** ** The order of a range loop *)

Lemma ranges_singleton k v l : ranges {[k := v]} l ↔ l = [(k, v)].
Proof.
  unfold ranges. rewrite map_to_list_singleton. split.
  - apply Permutation_singleton_r.
  - by intros ->.
Qed.

Lemma ranges_nil m : ranges m [] ↔ m = ∅.
Proof.
  unfold ranges. split.
  - intros H. apply map_to_list_empty_iff. symmetry. by apply Permutation_nil_l.
  - intros ->. by rewrite map_to_list_empty.
Qed.

Lemma ranges_head m k v rest : ranges m ((k, v) :: rest) → m !! k = Some v.
Proof.
  unfold ranges. intros H. apply elem_of_map_to_list.
  rewrite <- H. left.
Qed.


Lemma ranges_start l : ranges start_map l ↔ l = start_cmd.
Proof. apply ranges_singleton. Qed.

Ltac run_M :=
  unfold Detached.DoCommand, Inline.DoCommand, for_range, assert_string, deref,
    emit, throw, mbind, mret, M_bind, M_ret; cbn.

(** ** The pulse *)

Section Pulse.
Variable s : charUnitCharUnitLoad.
Variable board : Board.
Hypothesis bound : b s = Some board.


Lemma inline_pulse_healthy pin rest :
    GPIOPinByName board "11" = inl pin →
    (∀ high, pin_Set pin high = None) →
    Inline.DoCommand s (("char_load", VString "start") :: rest) =
      ([Logf LInfo "DoCommand key=%v" [ArgV (VString "char_load")];
        Logf LInfo "DoCommand command=%v" [ArgV (VString "start")];
        PinByName "11";
        PinSet pin true;
        Sleep (60 * Second);
        PinSet pin false],
       Done (None, None)).
  Proof.
    intros Hpin Hset. run_M.
    by rewrite bound, Hpin, !Hset.
  Qed.

Lemma detached_pulse_no_pin err :
    GPIOPinByName board "11" = inr err →
    Detached.bioCharProcess s = [PinByName "11"; Logv LError [ArgE err]].
  Proof.
    intros Hpin.
    unfold Detached.bioCharProcess, Detached.bioCharProcess_enter.
    by rewrite bound, Hpin.
  Qed.

Lemma inline_pulse_no_pin err rest :
    GPIOPinByName board "11" = inr err →
    Inline.DoCommand s (("char_load", VString "start") :: rest) =
      ([Logf LInfo "DoCommand key=%v" [ArgV (VString "char_load")];
        Logf LInfo "DoCommand command=%v" [ArgV (VString "start")];
        PinByName "11"],
       Done (None, Some err)).
  Proof.
    intros Hpin. run_M.
    by rewrite bound, Hpin.
  Qed.

Lemma inline_pulse_high_fails pin err rest :
    GPIOPinByName board "11" = inl pin →
    pin_Set pin true = Some err →
    Inline.DoCommand s (("char_load", VString "start") :: rest) =
      ([Logf LInfo "DoCommand key=%v" [ArgV (VString "char_load")];
        Logf LInfo "DoCommand command=%v" [ArgV (VString "start")];
        PinByName "11";
        PinSet pin true],
       Done (None, Some err)).
  Proof.
    intros Hpin Hset. run_M.
    by rewrite bound, Hpin, Hset.
  Qed.

Lemma inline_pulse_held pin rest :
    GPIOPinByName board "11" = inl pin →
    pin_Set pin true = None →
    Inline.DoCommand s (("char_load", VString "start") :: rest) =
      ([Logf LInfo "DoCommand key=%v" [ArgV (VString "char_load")];
        Logf LInfo "DoCommand command=%v" [ArgV (VString "start")];
        PinByName "11";
        PinSet pin true;
        Sleep (60 * Second);
        PinSet pin false],
       Done (None, pin_Set pin false)).
  Proof.
    intros Hpin Hset. run_M.
    rewrite bound, Hpin, Hset. cbn.
    by destruct (pin_Set pin false).
  Qed.
End Pulse.

(** The detached DoCommand answers a start command from the command
    alone: the board is not read. *)
Lemma detached_start s rest :
  Detached.DoCommand s (("char_load", VString "start") :: rest) =
    ([Logf LInfo "DoCommand key=%v" [ArgV (VString "char_load")];
      Logf LInfo "DoCommand command=%v" [ArgV (VString "start")];
      Go],
     Done (None, None)).
Proof. reflexivity. Qed.

(** C8: on a board whose lookup of pin "11" fails, the pulse reports the
    lookup error (the detached copy logs it, the inline copy returns it)
    and writes no pin. *)
Theorem C8_lookup_failure_writes_nothing s board err l :
  b s = Some board →
  GPIOPinByName board "11" = inr err →
  ranges start_map l →
  (Detached.bioCharProcess s = [PinByName "11"; Logv LError [ArgE err]]
   ∧ writes (Detached.bioCharProcess s) = [])
  ∧ (snd (Inline.DoCommand s l) = Done (None, Some err)
     ∧ writes (fst (Inline.DoCommand s l)) = []).
Proof.
  intros Hb Hpin ->%ranges_start. unfold start_cmd.
  rewrite (detached_pulse_no_pin s board Hb err Hpin).
  rewrite (inline_pulse_no_pin s board Hb err _ Hpin).
  by repeat split.
Qed.

Lemma C8_lookup_failure_writes_nothing_witness :
  ranges start_map start_cmd
  ∧ Detached.bioCharProcess (service_on (Some bare_board))
    = [PinByName "11"; Logv LError [ArgE (External "pin not found")]].
Proof.
  assert (Hr : ranges start_map start_cmd) by (apply ranges_start; reflexivity).
  split; [exact Hr|].
  apply (C8_lookup_failure_writes_nothing (service_on (Some bare_board))
           bare_board (External "pin not found") start_cmd);
    [reflexivity | reflexivity | exact Hr].
Defined.

(** ** Dispatch *)

Lemma dispatch_other_key s key value rest :
  key ≠ "char_load" →
  Detached.DoCommand s ((key, value) :: rest)
    = ([], Done (None, Some (unknown_key key)))
  ∧ Inline.DoCommand s ((key, value) :: rest)
    = ([], Done (None, Some (unknown_key key))).
Proof.
  intros Hk%String.eqb_neq. run_M. by rewrite Hk.
Qed.

Lemma dispatch_other_value s x rest :
  x ≠ "start" →
  Detached.DoCommand s (("char_load", VString x) :: rest)
    = ([Logf LInfo "DoCommand key=%v" [ArgV (VString "char_load")];
        Logf LInfo "DoCommand command=%v" [ArgV (VString x)]],
       Done (None, Some (unknown_value "char_load" (VString x))))
  ∧ Inline.DoCommand s (("char_load", VString x) :: rest)
    = ([Logf LInfo "DoCommand key=%v" [ArgV (VString "char_load")];
        Logf LInfo "DoCommand command=%v" [ArgV (VString x)]],
       Done (None, Some (unknown_value "char_load" (VString x)))).
Proof.
  intros Hx%String.eqb_neq. run_M. by rewrite Hx.
Qed.

Lemma dispatch_not_string s v rest :
  (∀ x, v ≠ VString x) →
  Detached.DoCommand s (("char_load", v) :: rest)
    = ([Logf LInfo "DoCommand key=%v" [ArgV (VString "char_load")]],
       Panicked (TypeAssertion v "string"))
  ∧ Inline.DoCommand s (("char_load", v) :: rest)
    = ([Logf LInfo "DoCommand key=%v" [ArgV (VString "char_load")]],
       Panicked (TypeAssertion v "string")).
Proof.
  intros Hv. run_M. destruct v; try done. by destruct (Hv x).
Qed.


Lemma ranges_two_keys v : ranges (two_keys v) [("x", VInt 1); ("char_load", v)].
Proof.
  unfold ranges, two_keys.
  rewrite map_to_list_insert by done.
  by rewrite map_to_list_singleton.
Qed.

(** C2, as stated, fails on the inline copy: there DoCommand returns the
    lookup error of a board without pins, and on a healthy board it
    sleeps through the hold before it returns. *)
Lemma C2_inline_waits_and_returns_errors :
  ranges start_map start_cmd
  ∧ snd (Inline.DoCommand (service_on (Some bare_board)) start_cmd)
    = Done (None, Some (External "pin not found"))
  ∧ In (Sleep (60 * Second))
       (fst (Inline.DoCommand (service_on (Some good_board)) start_cmd)).
Proof.
  split; [by apply ranges_start|]. split; [reflexivity|].
  cbn. tauto.
Qed.

(** C2 (amended): in the detached copy DoCommand answers
    {"char_load": "start"} with (nil, nil) after the [go] statement,
    without a pin access or a sleep of its own and whatever board is
    bound, so no failure of the goroutine reaches the caller.  In the
    inline copy DoCommand runs the pulse itself: it returns a failed
    lookup or a failed write to the caller, and returns success only
    after the 60-second sleep and the write that sets the pin low. *)
Theorem C2_start_reply s l :
  ranges start_map l →
  Detached.DoCommand s l =
    ([Logf LInfo "DoCommand key=%v" [ArgV (VString "char_load")];
      Logf LInfo "DoCommand command=%v" [ArgV (VString "start")];
      Go],
     Done (None, None))
  ∧ (∀ board, b s = Some board →
       match GPIOPinByName board "11" with
       | inr err => snd (Inline.DoCommand s l) = Done (None, Some err)
       | inl pin =>
           match pin_Set pin true with
           | Some err => snd (Inline.DoCommand s l) = Done (None, Some err)
           | None =>
               In (Sleep (60 * Second)) (fst (Inline.DoCommand s l))
               ∧ snd (Inline.DoCommand s l) = Done (None, pin_Set pin false)
           end
       end).
Proof.
  intros ->%ranges_start. split; [reflexivity|].
  intros board Hb. unfold start_cmd.
  destruct (GPIOPinByName board "11") as [pin|err] eqn:Hpin.
  - destruct (pin_Set pin true) as [err|] eqn:Hset.
    + by rewrite (inline_pulse_high_fails s board Hb pin err _ Hpin Hset).
    + rewrite (inline_pulse_held s board Hb pin _ Hpin Hset). cbn. tauto.
  - by rewrite (inline_pulse_no_pin s board Hb err _ Hpin).
Qed.

Lemma C2_start_reply_witness :
  ranges start_map start_cmd
  ∧ Detached.DoCommand (service_on (Some bare_board)) start_cmd =
      ([Logf LInfo "DoCommand key=%v" [ArgV (VString "char_load")];
        Logf LInfo "DoCommand command=%v" [ArgV (VString "start")];
        Go],
       Done (None, None)).
Proof.
  assert (Hr : ranges start_map start_cmd) by (apply ranges_start; reflexivity).
  split; [exact Hr|].
  apply (C2_start_reply (service_on (Some bare_board)) start_cmd Hr).
Defined.

(** C6, as stated, fails twice: a value that is not a string makes
    DoCommand panic, and in a map with a second key the loop may meet
    that key first and return the unknown-key error. *)
Lemma C6_value_not_string_or_not_first :
  (ranges {["char_load" := VInt 5]} [("char_load", VInt 5)]
   ∧ VInt 5 ≠ VString "start"
   ∧ snd (Detached.DoCommand (service_on None) [("char_load", VInt 5)])
     = Panicked (TypeAssertion (VInt 5) "string")
   ∧ snd (Inline.DoCommand (service_on None) [("char_load", VInt 5)])
     = Panicked (TypeAssertion (VInt 5) "string"))
  ∧ (ranges (two_keys (VString "stop")) [("x", VInt 1); ("char_load", VString "stop")]
     ∧ two_keys (VString "stop") !! "char_load" = Some (VString "stop")
     ∧ snd (Detached.DoCommand (service_on None)
              [("x", VInt 1); ("char_load", VString "stop")])
       = Done (None, Some (unknown_key "x"))).
Proof.
  split.
  - split; [by apply ranges_singleton|]. by repeat split.
  - split; [apply ranges_two_keys|]. by split.
Qed.

(** C6 (amended): for every command map that maps "char_load" to a
    value other than "start", and under every order of the range loop,
    DoCommand starts no pulse: no goroutine is launched and no pin is
    looked up or written.  When the value is a string DoCommand does not
    panic and returns an error: the unknown-value error carrying the key
    and the value when the loop meets "char_load" first (always so when
    it is the only key), and the unknown-key error carrying the key met
    first otherwise. *)
Theorem C6_unknown_value s m l v :
  ranges m l →
  m !! "char_load" = Some v →
  v ≠ VString "start" →
  (starts_no_pulse (fst (Detached.DoCommand s l))
   ∧ Detached.spawned (fst (Detached.DoCommand s l)) = []
   ∧ (∀ w, Detached.pool (fst (Detached.step w (Detached.CallDoCommand l)))
           = Detached.pool w)
   ∧ starts_no_pulse (fst (Inline.DoCommand s l)))
  ∧ (∀ x, v = VString x →
       ∃ e, snd (Detached.DoCommand s l) = Done (None, Some e)
         ∧ snd (Inline.DoCommand s l) = Done (None, Some e)
         ∧ ((head l = Some ("char_load", v)
             ∧ e = unknown_value "char_load" v)
            ∨ (∃ key value, key ≠ "char_load"
                 ∧ head l = Some (key, value) ∧ m !! key = Some value
                 ∧ e = unknown_key key)))
  ∧ (∀ x rest, l = ("char_load", VString x) :: rest →
       Detached.DoCommand s l
         = ([Logf LInfo "DoCommand key=%v" [ArgV (VString "char_load")];
             Logf LInfo "DoCommand command=%v" [ArgV (VString x)]],
            Done (None, Some (unknown_value "char_load" (VString x))))
       ∧ Inline.DoCommand s l
         = ([Logf LInfo "DoCommand key=%v" [ArgV (VString "char_load")];
             Logf LInfo "DoCommand command=%v" [ArgV (VString x)]],
            Done (None, Some (unknown_value "char_load" (VString x)))))
  ∧ (∀ x, m = {["char_load" := VString x]} →
       snd (Detached.DoCommand s l)
         = Done (None, Some (unknown_value "char_load" (VString x)))
       ∧ snd (Inline.DoCommand s l)
         = Done (None, Some (unknown_value "char_load" (VString x)))).
Proof.
  intros Hr Hm Hv.
  destruct l as [|[key value] rest].
  { apply ranges_nil in Hr. subst m. by rewrite lookup_empty in Hm. }
  pose proof (ranges_head _ _ _ _ Hr) as Hk.
  destruct (decide (key = "char_load")) as [->|Hne].
  - rewrite Hm in Hk. injection Hk as <-.
    assert (Hcase : (∃ x, v = VString x ∧ x ≠ "start") ∨ (∀ x, v ≠ VString x)).
    { destruct v as [| | |x| |]; try (by right).
      left. exists x. split; [done|]. by intros ->. }
    destruct Hcase as [(x & -> & Hx)|Hns].
    + destruct (dispatch_other_value s x rest Hx) as [Hd Hi].
      assert (Hw : ∀ w, Detached.pool
                          (fst (Detached.step w
                                  (Detached.CallDoCommand
                                     (("char_load", VString x) :: rest))))
                        = Detached.pool w).
      { intros w. unfold Detached.step.
        destruct (dispatch_other_value (Detached.svc w) x rest Hx) as [-> _].
        cbn. apply app_nil_r. }
      rewrite Hd, Hi. cbn [fst snd].
      split; [|split; [|split]].
      * split; [by intros e [<-|[<-|[]]]|].
        split; [done|]. split; [exact Hw|]. by intros e [<-|[<-|[]]].
      * intros x' _. eexists. split; [done|]. split; [done|]. by left.
      * by intros x' rest' [= <- <-].
      * intros x' ->. rewrite lookup_singleton_eq in Hm. by injection Hm as <-.
    + destruct (dispatch_not_string s v rest Hns) as [Hd Hi].
      assert (Hw : ∀ w, Detached.pool
                          (fst (Detached.step w
                                  (Detached.CallDoCommand
                                     (("char_load", v) :: rest))))
                        = Detached.pool w).
      { intros w. unfold Detached.step.
        destruct (dispatch_not_string (Detached.svc w) v rest Hns) as [-> _].
        cbn. apply app_nil_r. }
      rewrite Hd, Hi. cbn [fst snd].
      split; [|split; [|split]].
      * split; [by intros e [<-|[]]|].
        split; [done|]. split; [exact Hw|]. by intros e [<-|[]].
      * intros x ->. by destruct (Hns x).
      * intros x rest' [= -> _]. by destruct (Hns x).
      * intros x ->. rewrite lookup_singleton_eq in Hm.
        injection Hm as <-. by destruct (Hns x).
  - destruct (dispatch_other_key s key value rest Hne) as [Hd Hi].
    assert (Hw : ∀ w, Detached.pool
                        (fst (Detached.step w
                                (Detached.CallDoCommand ((key, value) :: rest))))
                      = Detached.pool w).
    { intros w. unfold Detached.step.
      destruct (dispatch_other_key (Detached.svc w) key value rest Hne) as [-> _].
      cbn. apply app_nil_r. }
    rewrite Hd, Hi. cbn [fst snd].
    split; [|split; [|split]].
    + split; [by intros e []|].
      split; [done|]. split; [exact Hw|]. by intros e [].
    + intros x _. eexists. split; [done|]. split; [done|].
      right. by exists key, value.
    + intros x rest' [= -> _]. done.
    + intros x ->. by rewrite lookup_singleton_ne in Hk.
Qed.

Lemma C6_unknown_value_witness :
  ranges {["char_load" := VString "stop"]} [("char_load", VString "stop")]
  ∧ snd (Detached.DoCommand (service_on None) [("char_load", VString "stop")])
    = Done (None, Some (unknown_value "char_load" (VString "stop")))
  ∧ snd (Inline.DoCommand (service_on None) [("char_load", VString "stop")])
    = Done (None, Some (unknown_value "char_load" (VString "stop"))).
Proof.
  assert (Hr : ranges {["char_load" := VString "stop"]}
                 [("char_load", VString "stop")])
    by (apply ranges_singleton; reflexivity).
  split; [exact Hr|].
  pose proof (C6_unknown_value (service_on None) _ _ (VString "stop")
                Hr eq_refl ltac:(discriminate)) as (_ & _ & _ & H).
  exact (H "stop" eq_refl).
Defined.







(** ** Goroutines: Close and overlapping pulses *)

Module DetachedFacts.
Import Detached.

Lemma run_app w l1 l2 :
  fst (run w (l1 ++ l2)) = fst (run (fst (run w l1)) l2).
Proof.
  revert w. induction l1 as [|a l1 IH]; intros w; [done|].
  cbn. destruct (step w a) as [w1 r] eqn:Hs.
  specialize (IH w1).
  destruct (run w1 (l1 ++ l2)) as [w2 rs] eqn:H2.
  destruct (run w1 l1) as [w3 rs3] eqn:H3. cbn in *.
  by rewrite IH.
Qed.

(** Close cancels the context and leaves every goroutine as it is. *)
Lemma close_keeps_goroutines w :
  pool (fst (step w CallClose)) = pool w
  ∧ cancelCtx (svc (fst (step w CallClose))) = true
  ∧ snd (step w CallClose) = Some (ErrorReply (Done None)).
Proof. done. Qed.

(** No step of a goroutine reads the context. *)
Lemma run_goroutine_ignores_cancel s t g :
  run_goroutine (cancelFunc s) t g = run_goroutine s t g.
Proof. by destruct g. Qed.

(** A goroutine inside its sleep does nothing before its wake time and
    sets the pin low once that time is reached, whatever the service
    state is by then. *)
Lemma sleeping_goroutine_wakes s t pin wake :
  (t < wake → run_goroutine s t (Sleeping pin wake) = (Sleeping pin wake, []))
  ∧ (wake ≤ t →
     run_goroutine s t (Sleeping pin wake) = (Finished, bioCharProcess_wake pin)).
Proof.
  cbn. split; intros H.
  - by rewrite (proj2 (Z.leb_gt wake t)) by lia.
  - by rewrite (proj2 (Z.leb_le wake t)) by lia.
Qed.

Section Healthy.
Variable board : Board.
Variable pin : GPIOPin.
Hypothesis lookup_ok : GPIOPinByName board "11" = inl pin.
Hypothesis high_ok : pin_Set pin true = None.

  (** A start command followed by the first scheduling of its goroutine:
      one more goroutine is inside its sleep, whatever the pool held. *)
Lemma start_then_schedule w :
    b (svc w) = Some board →
    let w' := fst (run w [CallDoCommand start_cmd; Schedule (length (pool w))]) in
    svc w' = svc w
    ∧ pool w' = (pool w ++ [Sleeping pin (now w + hold)])%list
    ∧ now w' = now w
    ∧ trace w' =
        (trace w ++
         stamp (now w)
           [Logf LInfo "DoCommand key=%v" [ArgV (VString "char_load")];
            Logf LInfo "DoCommand command=%v" [ArgV (VString "start")];
            Go;
            PinByName "11";
            Logf LInfo "DoCommand fetched the pin successfully" [];
            PinSet pin true;
            Logf LInfo "DoCommand set the pin to high successfully" [];
            Sleep hold])%list.
  Proof.
    intros Hb. cbn.
    rewrite list_lookup_middle by done.
    unfold run_goroutine, bioCharProcess_enter.
    rewrite Hb, lookup_ok, high_ok. cbn.
    split; [done|]. split; [|split; [done|]].
    - rewrite insert_app_r_alt by done. by rewrite Nat.sub_diag.
    - by rewrite <- app_assoc.
  Qed.

  (** Once the hold has passed, the next scheduling of a sleeping
      goroutine sets the pin low and ends it. *)
Lemma wake_after_hold w i wake d :
    pool w !! i = Some (Sleeping pin wake) →
    wake ≤ now w + d →
    0 ≤ d →
    let w' := fst (run w [Advance d; Schedule i]) in
    pool w' = <[i := Finished]> (pool w)
    ∧ now w' = now w + d
    ∧ trace w' = (trace w ++ stamp (now w + d) (bioCharProcess_wake pin))%list.
  Proof.
    intros Hi Hw Hd. cbn. rewrite Hi. cbn.
    rewrite Z.max_r by done.
    by rewrite (proj2 (Z.leb_le wake (now w + d))) by done.
  Qed.


Lemma burst_active k : ∀ w,
    b (svc w) = Some board →
    active (fst (run w (burst (length (pool w)) k))) = (active w + k)%nat.
  Proof.
    induction k as [|k IH]; intros w Hb.
    - cbn. lia.
    - change (burst (length (pool w)) (S k))
        with ([CallDoCommand start_cmd; Schedule (length (pool w))]
                ++ burst (S (length (pool w))) k)%list.
      rewrite run_app.
      destruct (start_then_schedule w Hb) as (Hs & Hp & _).
      set (w' := fst (run w [CallDoCommand start_cmd; Schedule (length (pool w))])) in *.
      assert (Hlen : S (length (pool w)) = length (pool w')).
      { rewrite Hp, length_app. cbn. lia. }
      rewrite Hlen, IH by (by rewrite Hs).
      unfold active, in_flight. rewrite Hp, omap_app, length_app. cbn. lia.
  Qed.
End Healthy.

End DetachedFacts.



(** C3: Close calls the cancel function and returns nil without panic,
    but the goroutine of an in-flight pulse is not cancelled.  With the
    service configured on board "b1", a start command, and Close after
    30 of the 60 seconds: the goroutine is still inside its sleep after
    Close, and when the remaining 30 seconds have passed it sets the pin
    low, after the context was cancelled.  In general Close leaves every
    goroutine as it is, and no step of a goroutine reads the context. *)
Theorem C3_close_leaves_pulse_running :
  Detached.NewCharUnitLoad {["b1" := RBoard good_board]} "foo"
      {| ResourceName := "foo"; ConvertedAttributes := Some {| Board_ := "b1" |} |}
    = ([Logv LInfo [ArgV (VString "board is now configured to ");
                    ArgV (VString "b1")]],
       Done (Some (service_on (Some good_board)), None))
  ∧ (let r := Detached.run (Detached.fresh (service_on (Some good_board)))
                close_mid_hold in
     snd r = [Detached.DoCommandReply (Done (None, None));
              Detached.ErrorReply (Done None)]
     ∧ cancelCtx (Detached.svc (fst r)) = true
     ∧ Detached.pool (fst r) = [Detached.Sleeping good_pin (60 * Second)]
     ∧ Detached.active (fst r) = 1%nat
     ∧ let r' := Detached.run (fst r)
                   [Detached.Advance (30 * Second); Detached.Schedule 0] in
       Detached.pool (fst r') = [Detached.Finished]
       ∧ Detached.trace (fst r') =
           (Detached.trace (fst r) ++
            [(60 * Second, Logf LInfo "DoCommand finished sleeping" []);
             (60 * Second, PinSet good_pin false);
             (60 * Second,
              Logf LInfo "DoCommand set the pin to low successfully" [])])%list
       ∧ In (30 * Second, Cancel) (Detached.trace (fst r)))
  ∧ (∀ w, Detached.pool (fst (Detached.step w Detached.CallClose))
          = Detached.pool w)
  ∧ (∀ s t g, Detached.run_goroutine (cancelFunc s) t g
              = Detached.run_goroutine s t g).
Proof.
  split; [reflexivity|]. split.
  - cbn. repeat split; try reflexivity. tauto.
  - split; [done|]. apply DetachedFacts.run_goroutine_ignores_cancel.
Qed.

(** C4, as stated, fails: two start commands, each goroutine scheduled
    once and no time passing, leave two pulses in flight together. *)
Lemma C4_two_starts_overlap :
  let w := fst (Detached.run (Detached.fresh (service_on (Some good_board)))
                  [Detached.CallDoCommand start_cmd; Detached.Schedule 0;
                   Detached.CallDoCommand start_cmd; Detached.Schedule 1]) in
  Detached.active w = 2%nat
  ∧ Detached.pool w = [Detached.Sleeping good_pin (60 * Second);
                       Detached.Sleeping good_pin (60 * Second)]
  ∧ ¬ (Detached.active w ≤ 1)%nat.
Proof.
  cbn. split; [reflexivity|]. split; [reflexivity|].
  intros H. change (2 ≤ 1)%nat in H. inversion H as [|? H']. inversion H'.
Qed.

(** C4 (amended): DoCommand has no guard.  Every start command adds one
    goroutine whatever the pool holds, and on a board whose pin "11"
    resolves and can be set high, [k] start commands issued before any
    hold ends leave [k] pulses in flight together. *)
Theorem C4_every_start_adds_a_pulse s board pin :
  b s = Some board →
  GPIOPinByName board "11" = inl pin →
  pin_Set pin true = None →
  (∀ w, Detached.pool (fst (Detached.step w (Detached.CallDoCommand start_cmd)))
        = (Detached.pool w ++ [Detached.Ready])%list)
  ∧ (∀ k, Detached.active
            (fst (Detached.run (Detached.fresh s) (burst 0 k))) = k).
Proof.
  intros Hb Hpin Hset. split; [done|].
  intros k.
  exact (DetachedFacts.burst_active board pin Hpin Hset k (Detached.fresh s) Hb).
Qed.

Lemma C4_every_start_adds_a_pulse_witness :
  Detached.active
    (fst (Detached.run (Detached.fresh (service_on (Some good_board)))
            (burst 0 3))) = 3%nat.
Proof.
  apply (C4_every_start_adds_a_pulse (service_on (Some good_board))
           good_board good_pin); reflexivity.
Defined.

(** ** Validate *)

Lemma validate_board_missing cfg path :
  Board_ cfg = "" →
  Detached.Validate cfg path = (None, Some (FieldRequired path "board"))
  ∧ Inline.Validate cfg path = (None, Some (FieldRequired path "board")).
Proof.
  intros H. unfold Detached.Validate, Inline.Validate. by rewrite H.
Qed.

(** The detached copy names the board as the one dependency. *)
Lemma detached_validate_board cfg path :
  Board_ cfg ≠ "" →
  Detached.Validate cfg path = (Some [Board_ cfg], None).
Proof.
  intros H%String.eqb_neq. unfold Detached.Validate. by rewrite H.
Qed.

(** The inline copy names no dependency at all. *)
Lemma inline_validate_board cfg path :
  Board_ cfg ≠ "" →
  Inline.Validate cfg path = (Some [], None).
Proof.
  intros H%String.eqb_neq. unfold Inline.Validate. by rewrite H.
Qed.

(** C5: with the board field "b1" and path "", the inline copy of
    Validate returns the empty dependency list and no error, where the
    claim (and the detached copy) give the list ["b1"].  With an empty
    board field both copies return the required-field error for
    "board". *)
Theorem C5_inline_validate_drops_board :
  Inline.Validate {| Board_ := "b1" |} "" = (Some [], None)
  ∧ Detached.Validate {| Board_ := "b1" |} "" = (Some ["b1"], None)
  ∧ Inline.Validate {| Board_ := "" |} "" = (None, Some (FieldRequired "" "board"))
  ∧ Detached.Validate {| Board_ := "" |} "" = (None, Some (FieldRequired "" "board")).
Proof. by repeat split. Qed.

(** ** Reconfigure *)

(** The detached copy changes the service only when it returns nil. *)
Lemma detached_reconfigure_atomic s deps rawConf e :
  snd (snd (Detached.Reconfigure s deps rawConf)) = Done (Some e) →
  fst (Detached.Reconfigure s deps rawConf) = s.
Proof.
  unfold Detached.Reconfigure.
  destruct (NativeConfig rawConf) as [conf|err]; [|done].
  destruct (FromDependencies deps (Board_ conf)) as [b0 [err|]]; [done|].
  destruct b0; cbn; discriminate.
Qed.

Lemma detached_reconfigure_unresolved s deps rawConf conf err :
  NativeConfig rawConf = inl conf →
  snd (FromDependencies deps (Board_ conf)) = Some err →
  Detached.Reconfigure s deps rawConf =
    (s, ([], Done (Some (Errorf
            "no source camera for transform pipeline  (%s): %w"
            [ArgV (VString (Board_ conf)); ArgE err])))).
Proof.
  intros Hc Hd. unfold Detached.Reconfigure. rewrite Hc.
  destruct (FromDependencies deps (Board_ conf)) as [b0 e0]. cbn in Hd.
  by subst e0.
Qed.

(** The inline copy stores the name and the result of the lookup, nil
    included, before it tests the error. *)
Lemma inline_reconfigure_stores_lookup s deps conf c :
  NativeConfig conf = inl c →
  b (fst (Inline.Reconfigure s deps conf)) = fst (FromDependencies deps (Board_ c))
  ∧ name (fst (Inline.Reconfigure s deps conf)) = ResourceName conf.
Proof.
  intros Hc. unfold Inline.Reconfigure. rewrite Hc.
  destruct (FromDependencies deps (Board_ c)) as [b0 [e|]]; done.
Qed.

(** C10: a service bound to a board is reconfigured with a dependency
    set that does not hold the board "b1".  The inline copy returns its
    error and leaves the service bound to nil; the detached copy returns
    its error and leaves the service as it was. *)
Theorem C10_inline_reconfigure_unbinds :
  FromDependencies ∅ "b1" = (None, Some (DependencyNotFound "b1"))
  ∧ Inline.Reconfigure (service_on (Some good_board)) ∅ conf_b1
    = (service_on None,
       ([], Done (Some (Errorf "unable to get board %v for %v"
                          [ArgV (VString "b1"); ArgV (VString "foo")]))))
  ∧ b (fst (Inline.Reconfigure (service_on (Some good_board)) ∅ conf_b1))
    ≠ b (service_on (Some good_board))
  ∧ fst (Detached.Reconfigure (service_on (Some good_board)) ∅ conf_b1)
    = service_on (Some good_board).
Proof. by repeat split. Qed.

(** * Further properties of the code *)

(** ** The pulse on boards and pins that fail *)

(** X1: with no board bound, the goroutine body of the detached copy
    logs that the board is nil and returns without a lookup or a write,
    while the inline DoCommand panics on the nil interface before any
    pin access. *)
Theorem nil_board_logs_or_panics s rest :
  b s = None →
  Detached.bioCharProcess s =
    [Logv LError
       [ArgV (VString "s.b (Board component) is nil inside DoCommand")]]
  ∧ Inline.DoCommand s (("char_load", VString "start") :: rest) =
      ([Logf LInfo "DoCommand key=%v" [ArgV (VString "char_load")];
        Logf LInfo "DoCommand command=%v" [ArgV (VString "start")]],
       Panicked NilDereference).
Proof.
  intros Hb. split.
  - unfold Detached.bioCharProcess, Detached.bioCharProcess_enter.
    by rewrite Hb.
  - run_M. by rewrite Hb.
Qed.

Lemma nil_board_logs_or_panics_witness :
  writes (Detached.bioCharProcess (service_on None)) = []
  ∧ snd (Inline.DoCommand (service_on None) start_cmd) = Panicked NilDereference.
Proof.
  destruct (nil_board_logs_or_panics (service_on None) [] eq_refl) as [H1 H2].
  unfold start_cmd. by rewrite H1, H2.
Defined.

(** X2: when the write that sets the pin high fails, both copies stop
    there: the detached goroutine logs the error, the inline DoCommand
    returns it, and neither sleeps nor writes the pin low. *)
Theorem high_write_failure_aborts s board pin err rest :
  b s = Some board →
  GPIOPinByName board "11" = inl pin →
  pin_Set pin true = Some err →
  Detached.bioCharProcess s =
    [PinByName "11";
     Logf LInfo "DoCommand fetched the pin successfully" [];
     PinSet pin true;
     Logv LError [ArgE err]]
  ∧ Inline.DoCommand s (("char_load", VString "start") :: rest) =
      ([Logf LInfo "DoCommand key=%v" [ArgV (VString "char_load")];
        Logf LInfo "DoCommand command=%v" [ArgV (VString "start")];
        PinByName "11";
        PinSet pin true],
       Done (None, Some err)).
Proof.
  intros Hb Hpin Hset. split.
  - unfold Detached.bioCharProcess, Detached.bioCharProcess_enter.
    by rewrite Hb, Hpin, Hset.
  - by apply (inline_pulse_high_fails s board Hb).
Qed.

Lemma high_write_failure_aborts_witness :
  writes (Detached.bioCharProcess (service_on (Some (board_of stuck_pin))))
    = [(stuck_pin, true)]
  ∧ snd (Inline.DoCommand (service_on (Some (board_of stuck_pin))) start_cmd)
    = Done (None, Some (External "write failed")).
Proof.
  destruct (high_write_failure_aborts (service_on (Some (board_of stuck_pin)))
              (board_of stuck_pin) stuck_pin (External "write failed") []
              eq_refl eq_refl eq_refl) as [H1 H2].
  unfold start_cmd. by rewrite H1, H2.
Defined.

(** X3: when the pin goes high but the write that sets it low fails,
    both copies have written high, slept 60 seconds and attempted the
    low write once; the detached goroutine logs the error and the inline
    DoCommand returns it. *)
Theorem low_write_failure_is_reported s board pin err rest :
  b s = Some board →
  GPIOPinByName board "11" = inl pin →
  pin_Set pin true = None →
  pin_Set pin false = Some err →
  Detached.bioCharProcess s =
    [PinByName "11";
     Logf LInfo "DoCommand fetched the pin successfully" [];
     PinSet pin true;
     Logf LInfo "DoCommand set the pin to high successfully" [];
     Sleep (60 * Second);
     Logf LInfo "DoCommand finished sleeping" [];
     PinSet pin false;
     Logv LError [ArgE err]]
  ∧ Inline.DoCommand s (("char_load", VString "start") :: rest) =
      ([Logf LInfo "DoCommand key=%v" [ArgV (VString "char_load")];
        Logf LInfo "DoCommand command=%v" [ArgV (VString "start")];
        PinByName "11";
        PinSet pin true;
        Sleep (60 * Second);
        PinSet pin false],
       Done (None, Some err)).
Proof.
  intros Hb Hpin Hhigh Hlow. split.
  - unfold Detached.bioCharProcess, Detached.bioCharProcess_enter,
      Detached.bioCharProcess_wake.
    by rewrite Hb, Hpin, Hhigh, Hlow.
  - rewrite (inline_pulse_held s board Hb pin rest Hpin Hhigh).
    by rewrite Hlow.
Qed.

Lemma low_write_failure_is_reported_witness :
  writes (Detached.bioCharProcess (service_on (Some (board_of latched_pin))))
    = [(latched_pin, true); (latched_pin, false)]
  ∧ snd (Inline.DoCommand (service_on (Some (board_of latched_pin))) start_cmd)
    = Done (None, Some (External "write failed")).
Proof.
  destruct (low_write_failure_is_reported
              (service_on (Some (board_of latched_pin)))
              (board_of latched_pin) latched_pin (External "write failed") []
              eq_refl eq_refl eq_refl eq_refl) as [H1 H2].
  unfold start_cmd. by rewrite H1, H2.
Defined.

(** X4: whatever the board and the pin answer, one pulse writes nothing,
    or the pin found under "11" high only (when that write failed), or
    that pin high and then low (when the high write succeeded); in both
    copies no other pin and no other order of levels occurs. *)
Theorem pulse_writes_high_then_low s rest :
  let d := writes (Detached.bioCharProcess s) in
  let i := writes (fst (Inline.DoCommand s (("char_load", VString "start") :: rest))) in
  (d = [] ∧ i = [])
  ∨ ∃ board pin,
      b s = Some board ∧ GPIOPinByName board "11" = inl pin
      ∧ ((is_Some (pin_Set pin true) ∧ d = [(pin, true)] ∧ i = [(pin, true)])
         ∨ (pin_Set pin true = None
            ∧ d = [(pin, true); (pin, false)]
            ∧ i = [(pin, true); (pin, false)])).
Proof.
  cbn zeta.
  unfold Detached.bioCharProcess, Detached.bioCharProcess_enter,
    Detached.bioCharProcess_wake.
  run_M.
  destruct (b s) as [board|] eqn:Hb; cbn; [|by left].
  destruct (GPIOPinByName board "11") as [pin|err] eqn:Hpin; cbn; [|by left].
  right. exists board, pin. split; [done|]. split; [done|].
  destruct (pin_Set pin true) as [err|] eqn:Hhigh; cbn.
  - left. by eauto.
  - right. split; [done|].
    by destruct (pin_Set pin false).
Qed.

(** ** Dispatch on arbitrary commands *)

Ltac dispatch_cases key value :=
  run_M;
  destruct (String.eqb key "char_load"); cbn; [|done];
  destruct value as [| | |command| |]; cbn; try done;
  destruct (String.eqb command "start"); cbn; try done.

(** X5: whenever DoCommand returns, in either copy and on every command,
    the result map is nil; success is the pair (nil, nil), never an empty
    map. *)
Theorem DoCommand_result_map_is_nil s cmd :
  match snd (Detached.DoCommand s cmd) with
  | Done (r, _) => r = None
  | Panicked _ => True
  end
  ∧ match snd (Inline.DoCommand s cmd) with
    | Done (r, _) => r = None
    | Panicked _ => True
    end.
Proof.
  destruct cmd as [|[key value] rest]; [done|].
  split.
  - dispatch_cases key value.
  - dispatch_cases key value.
    destruct (b s) as [board|]; cbn; [|done].
    destruct (GPIOPinByName board "11") as [pin|err]; cbn; [|done].
    destruct (pin_Set pin true); cbn; [done|].
    by destruct (pin_Set pin false).
Qed.

(** X6: every path through the loop body returns, so in both copies only
    the entry the range loop meets first is examined: the entries after
    it change neither the events nor the result. *)
Theorem DoCommand_reads_first_entry_only s kv rest :
  Detached.DoCommand s (kv :: rest) = Detached.DoCommand s [kv]
  ∧ Inline.DoCommand s (kv :: rest) = Inline.DoCommand s [kv].
Proof.
  destruct kv as [key value]. split.
  - dispatch_cases key value.
  - dispatch_cases key value.
    destruct (b s) as [board|]; cbn; [|done].
    destruct (GPIOPinByName board "11") as [pin|err]; cbn; [|done].
    destruct (pin_Set pin true); cbn; [done|].
    by destruct (pin_Set pin false).
Qed.

(** X7: the detached DoCommand never looks up or writes a pin and never
    sleeps, on any command and any service; it executes its [go]
    statement exactly once when the entry met first is
    "char_load" = "start" and not at all otherwise. *)
Theorem detached_DoCommand_only_spawns s cmd :
  writes (fst (Detached.DoCommand s cmd)) = []
  ∧ (∀ e, In e (fst (Detached.DoCommand s cmd)) →
          match e with
          | PinByName _ | PinSet _ _ | Sleep _ | Cancel => False
          | _ => True
          end)
  ∧ Detached.spawned (fst (Detached.DoCommand s cmd))
    = if is_start cmd then [Detached.Ready] else [].
Proof.
  destruct cmd as [|[key value] rest]; [by repeat split|].
  unfold is_start. run_M.
  destruct (String.eqb key "char_load"); cbn.
  - destruct value as [| | |command| |]; cbn;
      try (split; [done|]; split; [|done]; intros e [<-|[]]; done).
    destruct (String.eqb command "start"); cbn;
      (split; [done|]; split; [|done]).
    + intros e [<-|[<-|[<-|[]]]]; done.
    + intros e [<-|[<-|[]]]; done.
  - destruct value; by repeat split.
Qed.

(** ** Validate on arbitrary configurations and paths *)

(** X9: in both copies Validate fails exactly when the board field is
    empty, with a required-field error that carries the given path and
    the field name "board"; otherwise it returns a list and a nil error,
    the detached copy the one-element list of the board name and the
    inline copy the empty list. *)
Theorem Validate_cases cfg path :
  (Board_ cfg = ""
   ∧ Detached.Validate cfg path = (None, Some (FieldRequired path "board"))
   ∧ Inline.Validate cfg path = (None, Some (FieldRequired path "board")))
  ∨ (Board_ cfg ≠ ""
     ∧ Detached.Validate cfg path = (Some [Board_ cfg], None)
     ∧ Inline.Validate cfg path = (Some [], None)).
Proof.
  destruct (decide (Board_ cfg = "")) as [He|Hne].
  - left. split; [done|]. by apply validate_board_missing.
  - right. split; [done|].
    by rewrite detached_validate_board, inline_validate_board.
Qed.

(** ** Construction and reconfiguration *)



(** X11: Reconfigure never changes the stored configuration or the
    context, in either copy and on every path; the detached copy never
    changes the name, and the inline copy sets the name to the resource
    name of the new configuration whenever that configuration converts,
    also when the board lookup then fails. *)
Theorem Reconfigure_keeps_cfg_and_context s deps rawConf :
  (cfg (fst (Detached.Reconfigure s deps rawConf)) = cfg s
   ∧ cancelCtx (fst (Detached.Reconfigure s deps rawConf)) = cancelCtx s
   ∧ name (fst (Detached.Reconfigure s deps rawConf)) = name s)
  ∧ (cfg (fst (Inline.Reconfigure s deps rawConf)) = cfg s
     ∧ cancelCtx (fst (Inline.Reconfigure s deps rawConf)) = cancelCtx s
     ∧ name (fst (Inline.Reconfigure s deps rawConf))
       = match NativeConfig rawConf with
         | inl _ => ResourceName rawConf
         | inr _ => name s
         end).
Proof.
  unfold Detached.Reconfigure, Inline.Reconfigure.
  destruct (NativeConfig rawConf) as [conf|err]; [|done].
  destruct (FromDependencies deps (Board_ conf)) as [b0 [e|]]; done.
Qed.

(** X12: the detached NewCharUnitLoad returns either a service or an
    error, never both.  A configuration that does not convert cancels
    the fresh context and returns the conversion error; a board that
    cannot be resolved returns the wrapped lookup error without
    cancelling the context; otherwise the service carries the given
    name, the converted configuration, a live context and the board. *)
Theorem detached_NewCharUnitLoad_cases deps name0 rawConf :
  match NativeConfig rawConf with
  | inr err =>
      Detached.NewCharUnitLoad deps name0 rawConf
        = ([Cancel], Done (None, Some err))
  | inl conf =>
      match FromDependencies deps (Board_ conf) with
      | (_, Some err) =>
          Detached.NewCharUnitLoad deps name0 rawConf
            = ([], Done (None, Some (Errorf
                   "no source camera for transform pipeline  (%s): %w"
                   [ArgV (VString (Board_ conf)); ArgE err])))
      | (Some board, None) =>
          Detached.NewCharUnitLoad deps name0 rawConf
            = ([Logv LInfo [ArgV (VString "board is now configured to ");
                            ArgV (VString (board_Name board))]],
               Done (Some {| name := name0; cfg := conf; cancelCtx := false;
                             b := Some board |}, None))
      | (None, None) => True
      end
  end.
Proof.
  unfold Detached.NewCharUnitLoad, Detached.Reconfigure.
  destruct (NativeConfig rawConf) as [conf|err]; [|done].
  destruct (FromDependencies deps (Board_ conf)) as [[board|] [e|]]; done.
Qed.

(** X13: the dependencies that the detached Validate declares are
    enough for the detached constructor: when Validate accepts a
    configuration and every name it returns is bound to a board, the
    registered constructor returns a service with the resource name, that
    configuration, a live context and the board bound under the
    configured name. *)
Theorem detached_validated_config_constructs conf path ds deps rn :
  Detached.Validate conf path = (Some ds, None) →
  (∀ d, In d ds → ∃ board, deps !! d = Some (RBoard board)) →
  ∃ s board,
    snd (Detached.newCharUnitCharUnitLoad deps
           {| ResourceName := rn; ConvertedAttributes := Some conf |})
      = Done (Some s, None)
    ∧ Name s = rn ∧ cfg s = conf ∧ cancelCtx s = false
    ∧ b s = Some board ∧ deps !! Board_ conf = Some (RBoard board).
Proof.
  intros Hv Hd. unfold Detached.Validate in Hv.
  destruct (String.eqb (Board_ conf) ""); [done|].
  injection Hv as <-.
  destruct (Hd (Board_ conf) (or_introl eq_refl)) as [board Hb].
  eexists _, board.
  unfold Detached.newCharUnitCharUnitLoad, Detached.NewCharUnitLoad,
    Detached.Reconfigure, FromDependencies.
  cbn. rewrite Hb. cbn.
  split; [reflexivity|]. by repeat split.
Qed.

Lemma detached_validated_config_constructs_witness :
  ∃ s board,
    snd (Detached.newCharUnitCharUnitLoad {["b1" := RBoard good_board]} conf_b1)
      = Done (Some s, None)
    ∧ Name s = "foo" ∧ cfg s = {| Board_ := "b1" |} ∧ cancelCtx s = false
    ∧ b s = Some board
    ∧ ({["b1" := RBoard good_board]} : gmap string Resource) !! "b1"
      = Some (RBoard board).
Proof.
  apply (detached_validated_config_constructs {| Board_ := "b1" |} "" ["b1"]
           {["b1" := RBoard good_board]} "foo"); [reflexivity|].
  intros d [<-|[]]. by exists good_board.
Defined.

(** X8: the inline registered constructor fails only when the
    configuration does not convert, ignores the dependencies and binds
    no board; the service it returns panics on a start command, before
    any pin access, until Reconfigure has bound a board. *)
Theorem inline_constructed_service_panics_on_start deps rawConf rest :
  match NativeConfig rawConf with
  | inr err => Inline.newCharUnitCharUnitLoad deps rawConf = (None, Some err)
  | inl conf =>
      ∃ s, Inline.newCharUnitCharUnitLoad deps rawConf = (Some s, None)
        ∧ Name s = ResourceName rawConf ∧ cfg s = conf ∧ b s = None
        ∧ Inline.DoCommand s (("char_load", VString "start") :: rest) =
            ([Logf LInfo "DoCommand key=%v" [ArgV (VString "char_load")];
              Logf LInfo "DoCommand command=%v" [ArgV (VString "start")]],
             Panicked NilDereference)
  end.
Proof.
  unfold Inline.newCharUnitCharUnitLoad.
  destruct (NativeConfig rawConf) as [conf|err]; [|done].
  eexists. split; [reflexivity|]. by repeat split.
Qed.

(** X18: in the inline copy a service from the registered constructor,
    reconfigured with dependencies that hold a healthy board under the
    configured name, serves a start command with the whole pulse: lookup
    of "11", high, 60 seconds of sleep, low, and (nil, nil). *)
Theorem inline_construct_reconfigure_start deps rawConf conf board pin s0 rest :
  NativeConfig rawConf = inl conf →
  deps !! Board_ conf = Some (RBoard board) →
  GPIOPinByName board "11" = inl pin →
  (∀ high, pin_Set pin high = None) →
  Inline.newCharUnitCharUnitLoad deps rawConf = (Some s0, None) →
  let r := Inline.Reconfigure s0 deps rawConf in
  snd (snd r) = Done None
  ∧ b (fst r) = Some board
  ∧ Inline.DoCommand (fst r) (("char_load", VString "start") :: rest) =
      ([Logf LInfo "DoCommand key=%v" [ArgV (VString "char_load")];
        Logf LInfo "DoCommand command=%v" [ArgV (VString "start")];
        PinByName "11";
        PinSet pin true;
        Sleep (60 * Second);
        PinSet pin false],
       Done (None, None)).
Proof.
  intros Hc Hd Hpin Hset _ r.
  assert (Hb : b (fst r) = Some board).
  { subst r. destruct (inline_reconfigure_stores_lookup s0 deps rawConf conf Hc)
      as [-> _]. unfold FromDependencies. by rewrite Hd. }
  split; [|split; [done|]].
  - subst r. unfold Inline.Reconfigure, FromDependencies. by rewrite Hc, Hd.
  - by apply (inline_pulse_healthy (fst r) board Hb).
Qed.

Lemma inline_construct_reconfigure_start_witness :
  writes (fst (Inline.DoCommand
                 (fst (Inline.Reconfigure
                         {| name := "foo"; cfg := {| Board_ := "b1" |};
                            cancelCtx := false; b := None |}
                         {["b1" := RBoard good_board]} conf_b1))
                 start_cmd))
  = [(good_pin, true); (good_pin, false)].
Proof.
  pose proof (inline_construct_reconfigure_start
                {["b1" := RBoard good_board]} conf_b1 {| Board_ := "b1" |}
                good_board good_pin
                {| name := "foo"; cfg := {| Board_ := "b1" |};
                   cancelCtx := false; b := None |} []
                eq_refl eq_refl eq_refl (fun _ => eq_refl) eq_refl)
    as (_ & _ & H).
  unfold start_cmd. by rewrite H.
Defined.

(** X19: realMain of the command line harness cannot fail: the
    constructor it calls returns no error and binds no board, the
    deferred Close cancels the context once, and nil is returned without
    a pin access.  The configuration it passes is the zero Config, which
    Validate rejects in both copies. *)
Theorem realMain_returns_nil :
  Cli.realMain = ([Cancel], Done None)
  ∧ writes (fst Cli.realMain) = []
  ∧ (∀ path, snd (Inline.Validate {| Board_ := "" |} path)
             = Some (FieldRequired path "board")
           ∧ snd (Detached.Validate {| Board_ := "" |} path)
             = Some (FieldRequired path "board")).
Proof. by repeat split. Qed.

(** ** Runs of the detached service *)

Module DetachedRuns.
Import Detached.

Lemma in_stamp t0 es t e : In (t, e) (stamp t0 es) ↔ t = t0 ∧ In e es.
Proof.
  unfold stamp. rewrite in_map_iff. split.
  - intros [x [[= <- <-] H]]. done.
  - intros [-> H]. by exists e.
Qed.

Lemma run_cons w a rest : fst (run w (a :: rest)) = fst (run (fst (step w a)) rest).
Proof.
  cbn [run]. destruct (step w a) as [w1 r]. cbn [fst]. by destruct (run w1 rest).
Qed.

Lemma spawned_ready es g : g ∈ spawned es → g = Ready.
Proof.
  unfold spawned. intros [e [_ He]]%list_elem_of_omap.
  destruct e; by inversion He.
Qed.

Lemma DoCommand_no_write s cmd p high :
  ¬ In (PinSet p high) (fst (DoCommand s cmd)).
Proof.
  destruct cmd as [|[key value] rest]; [by intros []|].
  run_M. destruct (String.eqb key "char_load"); cbn; [|by intros []].
  destruct value as [| | |command| |]; cbn;
    try (intros [|[]]; done).
  destruct (String.eqb command "start"); cbn.
  - intros [|[|[|[]]]]; done.
  - intros [|[|[]]]; done.
Qed.

Lemma DoCommand_spawned s cmd :
  spawned (fst (DoCommand s cmd)) = if is_start cmd then [Ready] else [].
Proof.
  destruct cmd as [|[key value] rest]; [done|].
  unfold is_start. run_M.
  destruct (String.eqb key "char_load"); cbn; [|by destruct value].
  destruct value as [| | |command| |]; cbn; try done.
  by destruct (String.eqb command "start").
Qed.

Lemma Reconfigure_no_write s deps rawConf p high :
  ¬ In (PinSet p high) (fst (snd (Reconfigure s deps rawConf))).
Proof.
  unfold Reconfigure.
  destruct (NativeConfig rawConf) as [conf|err]; [|by intros []].
  destruct (FromDependencies deps (Board_ conf)) as [[board|] [e|]]; cbn;
    by intros [].
Qed.

Lemma enter_no_low s p : ¬ In (PinSet p false) (fst (bioCharProcess_enter s)).
Proof.
  unfold bioCharProcess_enter.
  destruct (b s) as [board|]; [|intros [|[]]; done].
  destruct (GPIOPinByName board "11") as [pin|err]; [|intros [|[|[]]]; done].
  destruct (pin_Set pin true); intros [|[|[|[|[]]]]]; done.
Qed.

Lemma enter_high s es pin :
  bioCharProcess_enter s = (es, Some pin) → In (PinSet pin true) es.
Proof.
  unfold bioCharProcess_enter.
  destruct (b s) as [board|]; [|done].
  destruct (GPIOPinByName board "11") as [pin'|err]; [|done].
  destruct (pin_Set pin' true); [done|].
  intros [= <- <-]. cbn. tauto.
Qed.

Lemma wake_low pin p :
  In (PinSet p false) (bioCharProcess_wake pin) → p = pin.
Proof.
  unfold bioCharProcess_wake.
  destruct (pin_Set pin false); intros [|[[= ->]|[|[]]]]; done.
Qed.

Lemma held_extend tr t0 es :
  held tr →
  (∀ p, In (PinSet p false) es →
        ∃ t', In (t', PinSet p true) tr ∧ t' + hold ≤ t0) →
  held (tr ++ stamp t0 es).
Proof.
  intros Hh Hes t p [Hin|Hin]%in_app_iff.
  - destruct (Hh t p Hin) as (t' & H1 & H2).
    exists t'. split; [|done]. apply in_app_iff. by left.
  - apply in_stamp in Hin as [-> Hin].
    destruct (Hes p Hin) as (t' & H1 & H2).
    exists t'. split; [|done]. apply in_app_iff. by left.
Qed.

(** One step keeps both invariants. *)
Lemma step_keeps_hold w a :
  held (trace w) → sleepers_set_high w →
  held (trace (fst (step w a))) ∧ sleepers_set_high (fst (step w a)).
Proof.
  intros Hh Hs. destruct a as [cmd| |deps rawConf|i|d].
  - unfold step.
    pose proof (DoCommand_no_write (svc w) cmd) as Hno.
    destruct (DoCommand (svc w) cmd) as [es r]. cbn in *. split.
    + apply held_extend; [done|]. intros p Hp. by destruct (Hno p false).
    + intros j pin wake Hj. cbn in Hj.
      apply lookup_app_Some in Hj as [Hj|[_ Hj]].
      * destruct (Hs _ _ _ Hj) as [H1 H2].
        split; [|done]. cbn. apply in_app_iff. by left.
      * apply list_elem_of_lookup_2, spawned_ready in Hj. done.
  - cbn. split.
    + apply (held_extend (trace w) (now w) [Cancel]); [done|].
      intros p [|[]]; done.
    + intros j pin wake Hj. destruct (Hs _ _ _ Hj) as [H1 H2].
      split; [|done]. cbn. apply in_app_iff. by left.
  - unfold step.
    pose proof (Reconfigure_no_write (svc w) deps rawConf) as Hno.
    destruct (Reconfigure (svc w) deps rawConf) as [s' [es r]]. cbn in *. split.
    + apply held_extend; [done|]. intros p Hp. by destruct (Hno p false).
    + intros j pin wake Hj. destruct (Hs _ _ _ Hj) as [H1 H2].
      split; [|done]. cbn. apply in_app_iff. by left.
  - unfold step. destruct (pool w !! i) as [g|] eqn:Hg; [|done].
    destruct g as [|pin wake|]; unfold run_goroutine.
    + pose proof (enter_no_low (svc w)) as Hlow.
      pose proof (enter_high (svc w)) as Hhigh.
      destruct (bioCharProcess_enter (svc w)) as [es [pin|]]; cbn in *.
      * split.
        -- apply held_extend; [done|].
           intros p [Hp|[|[]]]%in_app_iff; [by destruct (Hlow p)|done].
        -- intros j pin' wake' Hj. cbn in Hj.
           apply list_lookup_insert_Some in Hj as [(<- & [= <- <-] & _)|[_ Hj]].
           ++ cbn. split; [|lia]. apply in_app_iff. right.
              apply in_stamp. split; [lia|].
              apply in_app_iff. left. by apply Hhigh.
           ++ destruct (Hs _ _ _ Hj) as [H1 H2].
              split; [|done]. cbn. apply in_app_iff. by left.
      * split.
        -- apply held_extend; [done|]. intros p Hp. by destruct (Hlow p).
        -- intros j pin' wake' Hj. cbn in Hj.
           apply list_lookup_insert_Some in Hj as [(_ & [=] & _)|[_ Hj]].
           destruct (Hs _ _ _ Hj) as [H1 H2].
           split; [|done]. cbn. apply in_app_iff. by left.
    + destruct (Hs _ _ _ Hg) as [Hin Hbefore].
      destruct (Z.leb wake (now w)) eqn:Hle; cbn.
      * apply Z.leb_le in Hle. split.
        -- apply (held_extend (trace w) (now w) (bioCharProcess_wake pin));
             [done|].
           intros p ->%wake_low. exists (wake - hold). split; [done|lia].
        -- intros j pin' wake' Hj. cbn in Hj.
           apply list_lookup_insert_Some in Hj as [(_ & [=] & _)|[_ Hj]].
           destruct (Hs _ _ _ Hj) as [H1 H2].
           split; [|done]. cbn. apply in_app_iff. by left.
      * split.
        -- apply (held_extend (trace w) (now w) []); [done|]. by intros p [].
        -- intros j pin' wake' Hj. cbn in Hj.
           apply list_lookup_insert_Some in Hj as [(<- & [= <- <-] & _)|[_ Hj]].
           ++ split; [|done]. cbn. apply in_app_iff. by left.
           ++ destruct (Hs _ _ _ Hj) as [H1 H2].
              split; [|done]. cbn. apply in_app_iff. by left.
    + cbn. split.
      * apply (held_extend (trace w) (now w) []); [done|]. by intros p [].
      * intros j pin' wake' Hj. cbn in Hj.
        apply list_lookup_insert_Some in Hj as [(_ & [=] & _)|[_ Hj]].
        destruct (Hs _ _ _ Hj) as [H1 H2].
        split; [|done]. cbn. apply in_app_iff. by left.
  - cbn. split; [done|].
    intros j pin wake Hj. destruct (Hs _ _ _ Hj) as [H1 H2].
    split; [done|]. cbn. lia.
Qed.

Lemma run_keeps_hold acts : ∀ w,
  held (trace w) → sleepers_set_high w →
  held (trace (fst (run w acts))) ∧ sleepers_set_high (fst (run w acts)).
Proof.
  induction acts as [|a rest IH]; intros w Hh Hs; [done|].
  rewrite run_cons.
  destruct (step_keeps_hold w a Hh Hs) as [Hh' Hs'].
  by apply IH.
Qed.

Lemma step_pool_length w a :
  length (pool (fst (step w a))) =
    (length (pool w) + starts [a])%nat.
Proof.
  destruct a as [cmd| |deps rawConf|i|d]; unfold step, starts.
  - pose proof (DoCommand_spawned (svc w) cmd) as Hsp.
    destruct (DoCommand (svc w) cmd) as [es r]. cbn [fst pool] in *.
    rewrite length_app, Hsp. by destruct (is_start cmd).
  - cbn. lia.
  - destruct (Reconfigure (svc w) deps rawConf) as [s' [es r]]. cbn. lia.
  - destruct (pool w !! i) as [g|]; [|cbn; lia].
    destruct (run_goroutine (svc w) (now w) g) as [g' es]. cbn [fst pool].
    rewrite length_insert. cbn. lia.
  - cbn. lia.
Qed.

Lemma in_writes es p high : In (p, high) (writes es) ↔ In (PinSet p high) es.
Proof.
  unfold writes. induction es as [|e es IH]; [done|].
  destruct e; cbn; rewrite ?IH; try (split; [by right|by intros [|]]).
  split; (intros [[= <- <-]|H]; [by left|by right]).
Qed.

(** The writes of one scheduling of a goroutine, by its state. *)
Lemma run_goroutine_writes s t g :
  match g with
  | Ready =>
      (fst (run_goroutine s t g) = Finished
       ∧ (writes (snd (run_goroutine s t g)) = []
          ∨ ∃ p, writes (snd (run_goroutine s t g)) = [(p, true)]))
      ∨ (∃ pin, fst (run_goroutine s t g) = Sleeping pin (t + hold)
           ∧ writes (snd (run_goroutine s t g)) = [(pin, true)])
  | Sleeping pin wake =>
      (wake ≤ t ∧ fst (run_goroutine s t g) = Finished
       ∧ writes (snd (run_goroutine s t g)) = [(pin, false)])
      ∨ (fst (run_goroutine s t g) = g
         ∧ writes (snd (run_goroutine s t g)) = [])
  | Finished =>
      fst (run_goroutine s t g) = Finished
      ∧ writes (snd (run_goroutine s t g)) = []
  end.
Proof.
  destruct g as [|pin wake|]; [| |done].
  - unfold run_goroutine, bioCharProcess_enter.
    destruct (b s) as [board|]; [|by left; split; [|left]].
    destruct (GPIOPinByName board "11") as [pin|err];
      [|by left; split; [|left]].
    destruct (pin_Set pin true); cbn.
    + left. split; [done|]. right. by exists pin.
    + right. by exists pin.
  - unfold run_goroutine, bioCharProcess_wake.
    destruct (Z.leb wake t) eqn:Hle; [|by right].
    left. apply Z.leb_le in Hle. split; [done|]. split; [done|].
    by destruct (pin_Set pin false).
Qed.

(** A goroutine that is not scheduled stays as it is; one that is still
    to be launched can only become [Ready]. *)
Lemma step_other_goroutine w a i :
  (∀ j, a = Schedule j → j ≠ i) →
  match pool w !! i with
  | Some g => pool (fst (step w a)) !! i = Some g
  | None => pool (fst (step w a)) !! i = None
            ∨ pool (fst (step w a)) !! i = Some Ready
  end.
Proof.
  intros Ha. destruct a as [cmd| |deps rawConf|j|d]; unfold step.
  - destruct (DoCommand (svc w) cmd) as [es r]. cbn [fst pool].
    destruct (pool w !! i) as [g|] eqn:Hg.
    + by apply lookup_app_l_Some.
    + destruct ((pool w ++ spawned es)%list !! i) as [g|] eqn:Hg'; [|by left].
      right. apply lookup_app_Some in Hg' as [Hg'|[_ Hg']]; [congruence|].
      by apply list_elem_of_lookup_2, spawned_ready in Hg' as ->.
  - cbn. destruct (pool w !! i); [done|by left].
  - destruct (Reconfigure (svc w) deps rawConf) as [s' [es r]]. cbn.
    destruct (pool w !! i); [done|by left].
  - specialize (Ha j eq_refl).
    destruct (pool w !! j) as [g|];
      [|cbn [fst]; by destruct (pool w !! i); [|left]].
    destruct (run_goroutine (svc w) (now w) g) as [g' es]. cbn [fst pool].
    rewrite list_lookup_insert_ne by done.
    destruct (pool w !! i); [done|by left].
  - cbn. destruct (pool w !! i); [done|by left].
Qed.

Lemma pulse_shape_not_started ws :
  pulse_shape None ws ↔ pulse_shape (Some Ready) ws.
Proof. done. Qed.

(** Over any run, the writes of one goroutine have the shape its state
    allows. *)
Lemma own_writes_shape acts : ∀ w i,
  pulse_shape (pool w !! i) (own_writes w acts i).
Proof.
  induction acts as [|a rest IH]; intros w i.
  { cbn. destruct (pool w !! i) as [[|pin wake|]|]; by (done || left). }
  assert (Hother : (∀ j, a = Schedule j → j ≠ i) →
                   own_writes w (a :: rest) i
                   = own_writes (fst (step w a)) rest i →
                   pulse_shape (pool w !! i) (own_writes w (a :: rest) i)).
  { intros Ha ->. pose proof (step_other_goroutine w a i Ha) as Hp.
    specialize (IH (fst (step w a)) i).
    destruct (pool w !! i) as [g|]; [by rewrite Hp in IH|].
    destruct Hp as [Hp|Hp]; by rewrite Hp in IH. }
  destruct a as [cmd| |deps rawConf|j|d]; try (by apply Hother).
  destruct (decide (j = i)) as [->|Hne].
  2: { apply Hother; [by intros ? [= <-]|].
       cbn [own_writes]. by rewrite (proj2 (Nat.eqb_neq j i)). }
  cbn [own_writes]. rewrite Nat.eqb_refl.
  clear Hother. destruct (pool w !! i) as [g|] eqn:Hg.
  2: { specialize (IH (fst (step w (Schedule i))) i).
       unfold step in *. rewrite Hg in *. cbn in *. by rewrite Hg in IH. }
  pose proof (run_goroutine_writes (svc w) (now w) g) as Hrun.
  specialize (IH (fst (step w (Schedule i))) i).
  unfold step in *. rewrite Hg in *.
  destruct (run_goroutine (svc w) (now w) g) as [g' es]. cbn [fst snd pool] in *.
  rewrite list_lookup_insert_eq in IH by (by eapply lookup_lt_Some).
  destruct g as [|pin wake|]; cbn [pulse_shape].
  - destruct Hrun as [[-> Hw]|(pin & -> & ->)]; cbn [pulse_shape] in IH.
    + rewrite IH, app_nil_r.
      destruct Hw as [->|[p ->]]; [by left|]. right. left. by eexists _, _.
    + destruct IH as [->|(t' & -> & Ht')].
      * right. left. by eexists _, _.
      * right. right. by eexists _, _, _.
  - destruct Hrun as [(Hle & -> & ->)|[-> ->]]; cbn [pulse_shape] in IH.
    + rewrite IH. right. by eexists.
    + done.
  - destruct Hrun as [-> ->]. done.
Qed.

Lemma run_trace_grows acts : ∀ w x,
  In x (trace w) → In x (trace (fst (run w acts))).
Proof.
  induction acts as [|a rest IH]; intros w x Hx; [done|].
  rewrite run_cons. apply IH.
  destruct a as [cmd| |deps rawConf|j|d]; unfold step.
  - destruct (DoCommand (svc w) cmd) as [es r]. cbn. apply in_app_iff. by left.
  - cbn. apply in_app_iff. by left.
  - destruct (Reconfigure (svc w) deps rawConf) as [s' [es r]]. cbn.
    apply in_app_iff. by left.
  - destruct (pool w !! j) as [g|]; [|done].
    destruct (run_goroutine (svc w) (now w) g) as [g' es]. cbn.
    apply in_app_iff. by left.
  - done.
Qed.

(** Every own write of a goroutine is a pin write of the trace. *)
Lemma own_writes_in_trace acts : ∀ w i t p high,
  In (t, (p, high)) (own_writes w acts i) →
  In (t, PinSet p high) (trace (fst (run w acts))).
Proof.
  induction acts as [|a rest IH]; intros w i t p high Hin; [done|].
  rewrite run_cons. cbn [own_writes] in Hin.
  apply in_app_iff in Hin as [Hin|Hin]; [|by eapply IH].
  apply run_trace_grows.
  destruct a as [cmd| |deps rawConf|j|d]; try done.
  destruct (Nat.eqb j i); [|done].
  unfold step. destruct (pool w !! j) as [g|]; [|done].
  destruct (run_goroutine (svc w) (now w) g) as [g' es]. cbn in *.
  apply in_map_iff in Hin as ([p' h'] & [= <- <- <-] & Hin).
  apply in_app_iff. right. apply in_stamp. split; [done|].
  by apply in_writes.
Qed.

(** Every pin write that a run adds to the trace is an own write of one
    goroutine. *)
Lemma trace_writes_are_own acts : ∀ w t p high,
  In (t, PinSet p high) (trace (fst (run w acts))) →
  In (t, PinSet p high) (trace w)
  ∨ ∃ i, In (t, (p, high)) (own_writes w acts i).
Proof.
  induction acts as [|a rest IH]; intros w t p high Hin; [by left|].
  rewrite run_cons in Hin.
  destruct (IH _ _ _ _ Hin) as [Hin1|[i Hi]].
  2: { right. exists i. cbn [own_writes]. apply in_app_iff. by right. }
  destruct a as [cmd| |deps rawConf|j|d]; unfold step in Hin1.
  - pose proof (DoCommand_no_write (svc w) cmd p high) as Hno.
    destruct (DoCommand (svc w) cmd) as [es r]. cbn in *.
    apply in_app_iff in Hin1 as [?|[_ ?]%in_stamp]; [by left|done].
  - cbn in Hin1. apply in_app_iff in Hin1 as [?|[|[]]]; [by left|done].
  - pose proof (Reconfigure_no_write (svc w) deps rawConf p high) as Hno.
    destruct (Reconfigure (svc w) deps rawConf) as [s' [es r]]. cbn in *.
    apply in_app_iff in Hin1 as [?|[_ ?]%in_stamp]; [by left|done].
  - destruct (pool w !! j) as [g|] eqn:Hg; [|by left].
    destruct (run_goroutine (svc w) (now w) g) as [g' es] eqn:Hrun.
    cbn in Hin1.
    apply in_app_iff in Hin1 as [?|[-> Hes]%in_stamp]; [by left|].
    right. exists j. cbn [own_writes]. rewrite Nat.eqb_refl, Hg, Hrun.
    apply in_app_iff. left. apply in_map_iff.
    exists (p, high). split; [done|]. by apply in_writes.
  - by left.
Qed.

End DetachedRuns.

(** X14: in every run of the detached service from a fresh world, under
    any interleaving of DoCommand, Close, Reconfigure, goroutine
    scheduling and passing time, the pin writes of each goroutine are
    none, or one high write, or one high write followed by one low write
    to the same pin at least 60 seconds later on the clock; every one of
    them is in the trace, and every pin write of the trace is a write of
    one goroutine.  The guarantee is per goroutine: with overlapping
    pulses the low write of an earlier goroutine can fall inside the
    hold of a later one. *)
Theorem detached_goroutine_holds_60_seconds s acts i :
  let ws := own_writes (Detached.fresh s) acts i in
  (ws = []
   ∨ (∃ t p, ws = [(t, (p, true))])
   ∨ (∃ t t' p, ws = [(t, (p, true)); (t', (p, false))]
                ∧ t + 60 * Second ≤ t'))
  ∧ (∀ t p high, In (t, (p, high)) ws →
       In (t, PinSet p high)
          (Detached.trace (fst (Detached.run (Detached.fresh s) acts))))
  ∧ (∀ t p high,
       In (t, PinSet p high)
          (Detached.trace (fst (Detached.run (Detached.fresh s) acts))) →
       ∃ j, In (t, (p, high)) (own_writes (Detached.fresh s) acts j)).
Proof.
  cbn zeta. split; [|split].
  - exact (DetachedRuns.own_writes_shape acts (Detached.fresh s) i).
  - intros t p high. apply DetachedRuns.own_writes_in_trace.
  - intros t p high Hin.
    by destruct (DetachedRuns.trace_writes_are_own acts (Detached.fresh s)
                   t p high Hin) as [[]|?].
Qed.

(** Two overlapping pulses: started at 0 and at 30 seconds, the first
    one woken at 60 seconds and the second at 90. *)
Lemma detached_goroutine_holds_60_seconds_witness :
  let acts := [Detached.CallDoCommand start_cmd; Detached.Schedule 0;
               Detached.Advance (30 * Second);
               Detached.CallDoCommand start_cmd; Detached.Schedule 1;
               Detached.Advance (30 * Second); Detached.Schedule 0;
               Detached.Schedule 1;
               Detached.Advance (30 * Second); Detached.Schedule 1] in
  own_writes (Detached.fresh (service_on (Some good_board))) acts 1
  = [(30 * Second, (good_pin, true)); (90 * Second, (good_pin, false))]
  ∧ ∃ j, In (60 * Second, (good_pin, false))
           (own_writes (Detached.fresh (service_on (Some good_board))) acts j).
Proof.
  cbn zeta. split; [reflexivity|].
  apply (detached_goroutine_holds_60_seconds (service_on (Some good_board))
           [Detached.CallDoCommand start_cmd; Detached.Schedule 0;
            Detached.Advance (30 * Second);
            Detached.CallDoCommand start_cmd; Detached.Schedule 1;
            Detached.Advance (30 * Second); Detached.Schedule 0;
            Detached.Schedule 1;
            Detached.Advance (30 * Second); Detached.Schedule 1] 0%nat).
  vm_compute. tauto.
Defined.

(** X17: goroutines are created by start commands only and are never
    removed: after any run the pool has grown by exactly the number of
    DoCommand calls whose first-met entry was "char_load" = "start". *)
Theorem detached_pool_grows_by_starts acts w :
  length (Detached.pool (fst (Detached.run w acts)))
  = (length (Detached.pool w) + starts acts)%nat.
Proof.
  revert w. induction acts as [|a rest IH]; intros w.
  - cbn. lia.
  - rewrite DetachedRuns.run_cons, IH, DetachedRuns.step_pool_length.
    destruct a as [cmd| | | |]; cbn; lia.
Qed.

(** X15: Close does not stop the service from serving: after Close, a
    start command on a board whose pin "11" resolves and can be set high
    still launches a goroutine, and that goroutine sets the pin high
    although the context is cancelled. *)
Theorem closed_service_still_pulses w board pin :
  b (Detached.svc w) = Some board →
  GPIOPinByName board "11" = inl pin →
  pin_Set pin true = None →
  let w' := fst (Detached.run w
                   [Detached.CallClose; Detached.CallDoCommand start_cmd;
                    Detached.Schedule (length (Detached.pool w))]) in
  cancelCtx (Detached.svc w') = true
  ∧ Detached.pool w'
    = (Detached.pool w ++ [Detached.Sleeping pin (Detached.now w + 60 * Second)])%list
  ∧ In (Detached.now w, PinSet pin true) (Detached.trace w').
Proof.
  intros Hb Hpin Hset w'. subst w'.
  rewrite DetachedRuns.run_cons.
  set (w1 := fst (Detached.step w Detached.CallClose)).
  assert (Hb1 : b (Detached.svc w1) = Some board) by done.
  destruct (DetachedFacts.start_then_schedule board pin Hpin Hset w1 Hb1)
    as (Hs & Hp & _ & Ht).
  change (length (Detached.pool w)) with (length (Detached.pool w1)).
  rewrite Hs, Hp, Ht. split; [done|]. split; [done|].
  apply in_app_iff. right. cbn. tauto.
Qed.

Lemma closed_service_still_pulses_witness :
  In (0, PinSet good_pin true)
     (Detached.trace
        (fst (Detached.run (Detached.fresh (service_on (Some good_board)))
                [Detached.CallClose; Detached.CallDoCommand start_cmd;
                 Detached.Schedule 0]))).
Proof.
  apply (closed_service_still_pulses (Detached.fresh (service_on (Some good_board)))
           good_board good_pin); reflexivity.
Defined.

(** X16: a pulse in flight is not touched by Reconfigure: whatever the
    new dependencies and configuration are, and whether Reconfigure
    succeeds or fails, the goroutine ends its hold on the pin it
    resolved at its start.  After the Reconfigure call the trace grows
    by the events of Reconfigure and of the wake, and their only pin
    write is the low write to that pin; a pin of the newly bound board
    that differs from it is not written. *)
Theorem reconfigure_leaves_pulse_in_flight w i pin wake deps rawConf d :
  Detached.pool w !! i = Some (Detached.Sleeping pin wake) →
  wake ≤ Detached.now w + d →
  0 ≤ d →
  let w' := fst (Detached.run w
                   [Detached.CallReconfigure deps rawConf; Detached.Advance d;
                    Detached.Schedule i]) in
  let added :=
    (Detached.stamp (Detached.now w)
       (fst (snd (Detached.Reconfigure (Detached.svc w) deps rawConf))) ++
     Detached.stamp (Detached.now w + d) (Detached.bioCharProcess_wake pin))%list in
  Detached.pool w' = <[i := Detached.Finished]> (Detached.pool w)
  ∧ Detached.svc w' = fst (Detached.Reconfigure (Detached.svc w) deps rawConf)
  ∧ Detached.trace w' = (Detached.trace w ++ added)%list
  ∧ (∀ t p high, In (t, PinSet p high) added ↔
                 t = Detached.now w + d ∧ p = pin ∧ high = false)
  ∧ (∀ board' pin' t high,
       b (Detached.svc w') = Some board' →
       GPIOPinByName board' "11" = inl pin' →
       pin' ≠ pin →
       ¬ In (t, PinSet pin' high) added).
Proof.
  intros Hi Hw Hd. cbn zeta.
  rewrite DetachedRuns.run_cons.
  set (w1 := fst (Detached.step w (Detached.CallReconfigure deps rawConf))).
  assert (H1 : Detached.pool w1 = Detached.pool w
               ∧ Detached.now w1 = Detached.now w
               ∧ Detached.svc w1
                 = fst (Detached.Reconfigure (Detached.svc w) deps rawConf)
               ∧ Detached.trace w1
                 = (Detached.trace w ++
                    Detached.stamp (Detached.now w)
                      (fst (snd (Detached.Reconfigure (Detached.svc w) deps
                                   rawConf))))%list).
  { subst w1. unfold Detached.step.
    by destruct (Detached.Reconfigure (Detached.svc w) deps rawConf)
      as [s' [es r]]. }
  destruct H1 as (Hp1 & Hn1 & Hs1 & Ht1).
  destruct (DetachedFacts.wake_after_hold pin w1 i wake d) as (Hp & _ & Ht);
    [by rewrite Hp1 | by rewrite Hn1 | done |].
  assert (Hadded : ∀ t p high,
    In (t, PinSet p high)
       (Detached.stamp (Detached.now w)
          (fst (snd (Detached.Reconfigure (Detached.svc w) deps rawConf))) ++
        Detached.stamp (Detached.now w + d) (Detached.bioCharProcess_wake pin))%list
    ↔ t = Detached.now w + d ∧ p = pin ∧ high = false).
  { intros t p high. rewrite in_app_iff, !DetachedRuns.in_stamp. split.
    - intros [[_ Hin]|[-> Hin]].
      + by destruct (DetachedRuns.Reconfigure_no_write _ _ _ _ _ Hin).
      + split; [done|]. unfold Detached.bioCharProcess_wake in Hin.
        destruct (pin_Set pin false); by destruct Hin as [|[[= -> ->]|[|[]]]].
    - intros (-> & -> & ->). right. split; [done|].
      unfold Detached.bioCharProcess_wake. right. by left. }
  rewrite Hp, Ht, Hp1, Hn1, Ht1, <- app_assoc.
  split; [done|]. split; [|split; [done|split; [exact Hadded|]]].
  - rewrite <- Hs1. cbn. rewrite Hp1, Hi. cbn. rewrite Hn1.
    by destruct (Z.leb wake (Detached.now w + Z.max 0 d)).
  - intros board' pin' t high _ _ Hne Hin.
    apply Hadded in Hin as (_ & -> & _). done.
Qed.

(** A pulse on [good_pin] is in flight when the service is rebound to a
    board whose pin is [stuck_pin]. *)
Lemma reconfigure_leaves_pulse_in_flight_witness :
  let w := fst (Detached.run (Detached.fresh (service_on (Some good_board)))
                  [Detached.CallDoCommand start_cmd; Detached.Schedule 0]) in
  let w' := fst (Detached.run w
                   [Detached.CallReconfigure
                      {["b1" := RBoard (board_of stuck_pin)]} conf_b1;
                    Detached.Advance (60 * Second); Detached.Schedule 0]) in
  b (Detached.svc w') = Some (board_of stuck_pin)
  ∧ stuck_pin ≠ good_pin
  ∧ In (60 * Second, PinSet good_pin false) (Detached.trace w')
  ∧ ∀ t high,
      ¬ In (t, PinSet stuck_pin high)
          (Detached.stamp 0
             (fst (snd (Detached.Reconfigure (service_on (Some good_board))
                          {["b1" := RBoard (board_of stuck_pin)]} conf_b1))) ++
           Detached.stamp (60 * Second) (Detached.bioCharProcess_wake good_pin))%list.
Proof.
  cbn zeta.
  assert (Hne : stuck_pin ≠ good_pin).
  { intros H. apply (f_equal (fun p => pin_Set p true)) in H. discriminate H. }
  pose proof (reconfigure_leaves_pulse_in_flight
                (fst (Detached.run (Detached.fresh (service_on (Some good_board)))
                        [Detached.CallDoCommand start_cmd; Detached.Schedule 0]))
                0%nat good_pin (60 * Second)
                {["b1" := RBoard (board_of stuck_pin)]} conf_b1 (60 * Second)
                eq_refl ltac:(by vm_compute) ltac:(by vm_compute))
    as (_ & Hs & Ht & Hadded & Hother).
  split; [by rewrite Hs|]. split; [exact Hne|]. split.
  - rewrite Ht. apply in_app_iff. right. by apply Hadded.
  - intros t high.
    exact (Hother (board_of stuck_pin) stuck_pin t high
             ltac:(by rewrite Hs) eq_refl Hne).
Defined.

(** Scheduling a goroutine before the end of its hold does
    nothing: as long as the clock has not reached the wake time, the
    pool, the trace and the service stay as they are, so the pin stays
    as the pulse left it. *)
Theorem early_schedule_does_nothing w i pin wake d :
  Detached.pool w !! i = Some (Detached.Sleeping pin wake) →
  Detached.now w + Z.max 0 d < wake →
  let w' := fst (Detached.run w [Detached.Advance d; Detached.Schedule i]) in
  Detached.pool w' = Detached.pool w
  ∧ Detached.trace w' = Detached.trace w
  ∧ Detached.svc w' = Detached.svc w
  ∧ Detached.now w' = Detached.now w + Z.max 0 d.
Proof.
  intros Hi Hw. cbn. rewrite Hi. cbn.
  rewrite (proj2 (Z.leb_gt wake (Detached.now w + Z.max 0 d))) by lia. cbn.
  split; [by apply list_insert_id|]. split; [apply app_nil_r|done].
Qed.

Lemma early_schedule_does_nothing_witness :
  let w := fst (Detached.run (Detached.fresh (service_on (Some good_board)))
                  [Detached.CallDoCommand start_cmd; Detached.Schedule 0]) in
  Detached.pool
    (fst (Detached.run w [Detached.Advance (59 * Second); Detached.Schedule 0]))
  = [Detached.Sleeping good_pin (60 * Second)].
Proof.
  apply (early_schedule_does_nothing
           (fst (Detached.run (Detached.fresh (service_on (Some good_board)))
                   [Detached.CallDoCommand start_cmd; Detached.Schedule 0]))
           0%nat good_pin (60 * Second) (59 * Second));
    [reflexivity | by vm_compute].
Defined.
